(** * Quiz backend: the database connection manager, the schema, the
      validation middleware and the browser error handler.

    The development embeds the source files that the properties of the
    specification are about, and proves those properties.

    - [Js]: JavaScript completions (normal / thrown) and a small state and
      exception monad with [try/catch/finally].
    - [Db]: [backend/src/config/db.js], the [Database] class.
    - [Sql]: the schema DDL and the referential actions it declares.
    - [Browser]: the global error handler.
    - [Middleware]: the [validate] middleware.

    The back-off delay is computed as the source computes it, in IEEE 754
    binary64, with the primitive floats of Rocq; the counters, which hold
    small integers, are integers.  Text that the code splits and trims is a
    sequence of UTF-16 code units.  Every [async] method runs to completion
    before the next operation starts, and every awaited promise settles.
    The answers of the outside world (the mysql2 driver, [configService],
    [Math.random]) are arguments of the methods. *)

From Stdlib Require Import List String Ascii ZArith QArith Qminmax Qround Lia Lqa Bool.
From Stdlib Require Import DecimalString Qpower Floats.
Import ListNotations.

Set Implicit Arguments.

(* ===================================================================== *)
(** * JavaScript completions and the effect monad *)
(* ===================================================================== *)

Module Js.

Open Scope string_scope.

(** An error object as the code reads it: [message], and the fields the
    mysql2 driver adds ([code], [errno], [sqlState], [sqlMessage]). *)
Record Error := mkError {
  name : string;
  message : string;
  code : option string;
  errno : option Z;
  sqlState : option string;
  sqlMessage : option string
}.

(** [new Error(msg)] *)
Definition newError (msg : string) : Error :=
  mkError "Error" msg None None None None.

(** the error of reading a property of [null] or [undefined] *)
Definition TypeError (msg : string) : Error :=
  mkError "TypeError" msg None None None None.

(** the error of evaluating an identifier that has no binding *)
Definition ReferenceError (ident : string) : Error :=
  mkError "ReferenceError" (ident ++ " is not defined") None None None None.

(** How a statement, a call or an awaited promise ends. *)
Inductive completion (A : Type) : Type :=
| Normal (a : A)
| Abrupt (e : Error).
Arguments Normal {A} a.
Arguments Abrupt {A} e.

Section Monad.
Variable S : Type.

Definition M (A : Type) : Type := S -> completion A * S.

Definition ret {A} (a : A) : M A := fun s => (Normal a, s).

Definition bind {A B} (m : M A) (k : A -> M B) : M B :=
  fun s => match m s with
           | (Normal a, s1) => k a s1
           | (Abrupt e, s1) => (Abrupt e, s1)
           end.

Definition throw {A} (e : Error) : M A := fun s => (Abrupt e, s).

Definition gets {A} (f : S -> A) : M A := fun s => (Normal (f s), s).

Definition modify (f : S -> S) : M unit := fun s => (Normal tt, f s).

(** the result of a call into a library outside the program *)
Definition await {A} (o : completion A) : M A := fun s => (o, s).

(** [try { m } catch (e) { h e }] *)
Definition tryCatch {A} (m : M A) (h : Error -> M A) : M A :=
  fun s => match m s with
           | (Normal a, s1) => (Normal a, s1)
           | (Abrupt e, s1) => h e s1
           end.

(** [try { m } finally { f }]: [f] runs on every exit of [m]; when [f]
    throws, its error replaces the completion of [m]. *)
Definition tryFinally {A} (m : M A) (f : M unit) : M A :=
  fun s => match m s with
           | (c, s1) => match f s1 with
                        | (Normal _, s2) => (c, s2)
                        | (Abrupt e, s2) => (Abrupt e, s2)
                        end
           end.

(** [for (const x of xs) { body x }] *)
Fixpoint forOf {A} (xs : list A) (body : A -> M unit) : M unit :=
  match xs with
  | [] => ret tt
  | x :: rest => bind (body x) (fun _ => forOf rest body)
  end.

Definition when (b : bool) (m : M unit) : M unit :=
  if b then m else ret tt.
End Monad.

Arguments ret {S A} a.
Arguments throw {S A} e.
Arguments gets {S A} f.
Arguments modify {S} f.
Arguments await {S A} o.

(** template literals print integers in decimal *)
Definition show (z : Z) : string := NilZero.string_of_int (Z.to_int z).

(** ** Numbers

    A JavaScript number is an IEEE 754 binary64 float: [+], [*] and [/] of
    the source are the operations of [PrimFloat], each rounding to the
    nearest float. *)

(** the rational that a finite float stands for; [None] for NaN and the
    infinities *)
Definition toQ (x : float) : option Q :=
  match Prim2SF x with
  | S754_zero _ => Some 0%Q
  | S754_finite s m e =>
      Some (inject_Z (if s then Zneg m else Zpos m) * Qpower 2 e)%Q
  | S754_nan | S754_infinity _ => None
  end.

(** [Math.min(x, y)]: NaN when an argument is NaN, and -0 below +0 *)
Definition Math_min (x y : float) : float :=
  if (PrimFloat.is_nan x || PrimFloat.is_nan y)%bool then PrimFloat.nan
  else if PrimFloat.ltb x y then x
  else if PrimFloat.ltb y x then y
  else if PrimFloat.get_sign x then x else y.

(** [Math.pow(x, k)] for an integer [k].  ECMAScript leaves the precision
    of [Math.pow] to the engine; a power that is itself a float is returned
    as it is, and so it is by the products below as long as none of them
    is rounded, which is the case of the powers of 1.5 that a counter
    capped at 10 asks for. *)
Definition Math_pow (x : float) (k : Z) : float :=
  match k with
  | Z0 => PrimFloat.one
  | Zpos p => Pos.iter (fun a => PrimFloat.mul a x) PrimFloat.one p
  | Zneg p =>
      PrimFloat.div PrimFloat.one
        (Pos.iter (fun a => PrimFloat.mul a x) PrimFloat.one p)
  end.

(** [Math.round(x)] of a finite [x]: the nearest integer, halves upwards *)
Definition Math_round (x : float) : option Z :=
  option_map (fun q => Qfloor (q + (1 # 2))) (toQ x).

(** [Math.round(x)] inside a template literal.  The digits are those of
    the exact integer, which is the text the engine prints below 2^53 in
    magnitude. *)
Definition showRounded (x : float) : string :=
  match Math_round x with
  | Some z => show z
  | None =>
      if PrimFloat.is_nan x then "NaN"
      else if PrimFloat.get_sign x then "-Infinity" else "Infinity"
  end.

(** ** Text

    A JavaScript string is a sequence of UTF-16 code units.  Messages,
    which the code only builds and compares, are kept as [string]; the
    text that the code takes apart is a list of code units. *)
Definition jsString := list N.

(** a literal of the source, all of whose characters are ASCII *)
Definition ofString (s : string) : jsString :=
  map N_of_ascii (list_ascii_of_string s).

End Js.

Declare Scope js_scope.
Delimit Scope js_scope with js.
Notation "x <- m ;; k" := (Js.bind m (fun x => k))
  (at level 61, m at next level, right associativity) : js_scope.
Notation "m ;; k" := (Js.bind m (fun _ => k))
  (at level 61, right associativity) : js_scope.

(* ===================================================================== *)
(** * backend/src/config/db.js *)
(* ===================================================================== *)

Module Db.

Import Js.
Open Scope string_scope.
Open Scope Z_scope.
Open Scope js_scope.

(** ** What the program sees of the outside world *)

(** [configService.get('database')] *)
Record DbConfig := mkDbConfig {
  host : string;
  user : string;
  password : string;
  name : string;
  connectionLimit : Z;
  queueLimit : Z
}.

(** the logger: one entry per call of [logger.info] / [logger.error] *)
Inductive Level := Info | Err.

Inductive LogArg :=
| AError (e : Error)
| AText (s : string)
| AConfig (host user database : string) (connectionLimit : Z)
| ADetails (code : option string) (errno : option Z)
           (sqlState sqlMessage : option string)
| AParams (ps : list string).

Record LogEntry := mkLog {
  level : Level;
  text : string;
  args : list LogArg
}.

(** timers of the event loop *)
Inductive Callback :=
| CbInitialize     (* () => { this.initialize(); } *)
| CbHealthCheck.   (* the async arrow function of setupConnectionMonitoring *)

Record Timeout := mkTimeout {
  tHandle : nat;
  tDelay : float;      (* milliseconds *)
  tCallback : Callback
}.

Record Interval := mkInterval {
  iHandle : nat;
  iPeriod : Z;         (* milliseconds *)
  iCallback : Callback
}.

(** listeners registered with [process.on] *)
Inductive Listener :=
| LCleanup         (* () => { this.cleanup(); } *)
| LCleanupExit.    (* () => { this.cleanup(); process.exit(0); } *)

(** rows returned by the driver to [query] *)
Definition Rows := list (list (string * string)).

(** Answers of the mysql2 driver and of [configService] during one
    connection test. *)
Record Driver := mkDriver {
  tConfig : completion DbConfig;          (* configService.get('database') *)
  getConn : completion unit;              (* pool.getConnection() *)
  schemata : completion nat;              (* dbCheck.length *)
  createDatabase : completion unit;       (* CREATE DATABASE IF NOT EXISTS *)
  useDatabase : completion unit;          (* USE dbName *)
  selectOne : completion (list (option Z)); (* connection_test of each row *)
  releaseConn : completion unit           (* connection.release() *)
}.

(** Answers during one [initializeSchema]. *)
Record SchemaIO := mkSchemaIO {
  sGetConn : completion unit;             (* pool.getConnection() *)
  sReadFile : completion jsString;           (* fs.promises.readFile *)
  sExecute : jsString -> completion unit;   (* connection.execute(sql + ';') *)
  sRelease : completion unit              (* connection.release() *)
}.

(** Answers during one [initialize]. *)
Record InitIO := mkInitIO {
  iConfig : completion DbConfig;          (* configService.get('database') *)
  iCreatePool : completion unit;          (* mysql.createPool(...) *)
  iTest : Driver;
  iSchema : SchemaIO;
  iRandom : float                         (* Math.random() *)
}.

(** ** The [Database] object and the host state its methods touch *)

Record State := mkState {
  pool : option nat;
  isConnected : bool;
  connectionErrors : Z;
  reconnectAttempts : Z;
  maxReconnectAttempts : Z;
  reconnectDelay : float;
  healthCheck : option nat;
  (* host *)
  timeouts : list Timeout;
  intervals : list Interval;
  listeners : list (string * Listener);
  nextHandle : nat;
  endedPools : list nat;
  log : list LogEntry
}.

Definition set_pool v s :=
  mkState v (isConnected s) (connectionErrors s) (reconnectAttempts s)
    (maxReconnectAttempts s) (reconnectDelay s) (healthCheck s) (timeouts s)
    (intervals s) (listeners s) (nextHandle s) (endedPools s) (log s).
Definition set_isConnected v s :=
  mkState (pool s) v (connectionErrors s) (reconnectAttempts s)
    (maxReconnectAttempts s) (reconnectDelay s) (healthCheck s) (timeouts s)
    (intervals s) (listeners s) (nextHandle s) (endedPools s) (log s).
Definition set_connectionErrors v s :=
  mkState (pool s) (isConnected s) v (reconnectAttempts s)
    (maxReconnectAttempts s) (reconnectDelay s) (healthCheck s) (timeouts s)
    (intervals s) (listeners s) (nextHandle s) (endedPools s) (log s).
Definition set_reconnectAttempts v s :=
  mkState (pool s) (isConnected s) (connectionErrors s) v
    (maxReconnectAttempts s) (reconnectDelay s) (healthCheck s) (timeouts s)
    (intervals s) (listeners s) (nextHandle s) (endedPools s) (log s).
Definition set_healthCheck v s :=
  mkState (pool s) (isConnected s) (connectionErrors s) (reconnectAttempts s)
    (maxReconnectAttempts s) (reconnectDelay s) v (timeouts s)
    (intervals s) (listeners s) (nextHandle s) (endedPools s) (log s).
Definition set_timeouts v s :=
  mkState (pool s) (isConnected s) (connectionErrors s) (reconnectAttempts s)
    (maxReconnectAttempts s) (reconnectDelay s) (healthCheck s) v
    (intervals s) (listeners s) (nextHandle s) (endedPools s) (log s).
Definition set_intervals v s :=
  mkState (pool s) (isConnected s) (connectionErrors s) (reconnectAttempts s)
    (maxReconnectAttempts s) (reconnectDelay s) (healthCheck s) (timeouts s)
    v (listeners s) (nextHandle s) (endedPools s) (log s).
Definition set_listeners v s :=
  mkState (pool s) (isConnected s) (connectionErrors s) (reconnectAttempts s)
    (maxReconnectAttempts s) (reconnectDelay s) (healthCheck s) (timeouts s)
    (intervals s) v (nextHandle s) (endedPools s) (log s).
Definition set_nextHandle v s :=
  mkState (pool s) (isConnected s) (connectionErrors s) (reconnectAttempts s)
    (maxReconnectAttempts s) (reconnectDelay s) (healthCheck s) (timeouts s)
    (intervals s) (listeners s) v (endedPools s) (log s).
Definition set_endedPools v s :=
  mkState (pool s) (isConnected s) (connectionErrors s) (reconnectAttempts s)
    (maxReconnectAttempts s) (reconnectDelay s) (healthCheck s) (timeouts s)
    (intervals s) (listeners s) (nextHandle s) v (log s).
Definition set_log v s :=
  mkState (pool s) (isConnected s) (connectionErrors s) (reconnectAttempts s)
    (maxReconnectAttempts s) (reconnectDelay s) (healthCheck s) (timeouts s)
    (intervals s) (listeners s) (nextHandle s) (endedPools s) v.

Definition Meth (A : Type) := M State A.

(** ** Host primitives *)

Definition logger (l : Level) (msg : string) (a : list LogArg) : Meth unit :=
  modify (fun s => set_log (log s ++ [mkLog l msg a]) s).
Definition logger_info := logger Info.
Definition logger_error := logger Err.

Definition fresh : Meth nat :=
  h <- gets nextHandle ;;
  modify (set_nextHandle (S h)) ;;
  ret h.

Definition setTimeout (cb : Callback) (delay : float) : Meth nat :=
  h <- fresh ;;
  modify (fun s => set_timeouts (timeouts s ++ [mkTimeout h delay cb]) s) ;;
  ret h.

Definition setInterval (cb : Callback) (period : Z) : Meth nat :=
  h <- fresh ;;
  modify (fun s => set_intervals (intervals s ++ [mkInterval h period cb]) s) ;;
  ret h.

Definition clearInterval (h : nat) : Meth unit :=
  modify (fun s =>
    set_intervals (filter (fun i => negb (Nat.eqb (iHandle i) h)) (intervals s)) s).

Definition process_on (ev : string) (l : Listener) : Meth unit :=
  modify (fun s => set_listeners (listeners s ++ [(ev, l)]) s).

(** The bindings an identifier of db.js can resolve to: the three imports,
    the declarations of the module, and the host globals the file uses. *)
Definition moduleScope : list string :=
  [ "mysql"; "configService"; "logger";
    "Database"; "database"; "pool"; "testConnection"; "dbQuery";
    "getConnection";
    "setInterval"; "clearInterval"; "setTimeout"; "process"; "Math";
    "Error"; "URL" ].

Definition resolve (ident : string) : Meth unit :=
  if existsb (String.eqb ident) moduleScope then ret tt
  else throw (ReferenceError ident).

(** ** String helpers of [initializeSchema] *)

(** the code units that [String.prototype.trim] removes: the WhiteSpace
    of ECMAScript (TAB, VT, FF, SP, NBSP, ZWNBSP and the space separators
    of Unicode) and its LineTerminator (LF, CR, LS, PS) *)
Definition isSpace (c : N) : bool :=
  existsb (N.eqb c)
    [ 0x0009; 0x000A; 0x000B; 0x000C; 0x000D; 0x0020; 0x00A0; 0x1680;
      0x2000; 0x2001; 0x2002; 0x2003; 0x2004; 0x2005; 0x2006; 0x2007;
      0x2008; 0x2009; 0x200A; 0x2028; 0x2029; 0x202F; 0x205F; 0x3000;
      0xFEFF ]%N.

Fixpoint trimStart (s : jsString) : jsString :=
  match s with
  | [] => []
  | c :: rest => if isSpace c then trimStart rest else s
  end.

Fixpoint trimEnd (s : jsString) : jsString :=
  match s with
  | [] => []
  | c :: rest =>
      match trimEnd rest with
      | [] => if isSpace c then [] else [c]
      | r => c :: r
      end
  end.

Definition trim (s : jsString) : jsString := trimEnd (trimStart s).

(** [s.split(sep)] for a separator of one code unit *)
Fixpoint split (sep : N) (s : jsString) : list jsString :=
  match s with
  | [] => [[]]
  | c :: rest =>
      if N.eqb c sep then [] :: split sep rest
      else match split sep rest with
           | [] => [[c]]
           | h :: t => (c :: h) :: t
           end
  end.

(** the code unit of [';'] *)
Definition semicolon : N := 0x3B.

(** ** The methods of [Database] *)

(** the state the constructor builds before it calls [initialize] *)
Definition fieldsOfNew : State :=
  mkState None false 0 0 10 5000%float None [] [] [] 0%nat [] [].

(** [setupConnectionMonitoring()] *)
Definition setupConnectionMonitoring : Meth unit :=
  hc <- gets healthCheck ;;
  match hc with
  | Some h => clearInterval h
  | None => ret tt
  end ;;
  h <- setInterval CbHealthCheck 30000 ;;
  modify (set_healthCheck (Some h)) ;;
  process_on "exit" LCleanup ;;
  process_on "SIGINT" LCleanupExit ;;
  process_on "SIGTERM" LCleanupExit.

(** the [switch (error.code)] of [testConnection] *)
Definition logByCode (error : Error) : Meth unit :=
  match code error with
  | Some c =>
      if String.eqb c "ER_ACCESS_DENIED_ERROR" then
        logger_error "Access denied. Please check database username and password." []
      else if String.eqb c "ECONNREFUSED" then
        logger_error "Connection refused. Please check if MySQL server is running." []
      else if String.eqb c "ER_BAD_DB_ERROR" then
        logger_error "Database does not exist." []
      else
        logger_error "Unknown database error:" [AText (message error)]
  | None =>
      logger_error "Unknown database error:" [AText (message error)]
  end.

(** [testConnection(logSuccess = true)], its [try] block: [Some true] is
    the value [true], [None] is [undefined] (the function falls off its end
    when the test query does not answer 1). *)
Definition testConnection_try (logSuccess : bool) (io : Driver)
  : Meth (option bool) :=
  p <- gets pool ;;
  match p with
  | None => throw (newError "Database pool not initialized")
  | Some _ =>
      await (getConn io) ;;
      tryFinally
        (await (tConfig io) ;;
         n <- await (schemata io) ;;
         (if Nat.eqb n 0 then
            cfg <- await (tConfig io) ;;
            await (createDatabase io) ;;
            logger_info ("Created database: " ++ name cfg) [] ;;
            await (useDatabase io)
          else ret tt) ;;
         result <- await (selectOne io) ;;
         match result with
         | [] =>
             throw (TypeError
               "Cannot read properties of undefined (reading 'connection_test')")
         | Some 1 :: _ =>
             c <- gets isConnected ;;
             (if negb c then
                modify (set_isConnected true) ;;
                modify (set_connectionErrors 0) ;;
                modify (set_reconnectAttempts 0) ;;
                when logSuccess
                  (logger_info "Database connection established successfully" [])
              else ret tt) ;;
             ret (Some true)
         | _ :: _ => ret None
         end)
        (await (releaseConn io))
  end.

(** its [catch (error)] block *)
Definition testConnection_catch (error : Error) : Meth (option bool) :=
  modify (set_isConnected false) ;;
  modify (fun s => set_connectionErrors (connectionErrors s + 1) s) ;;
  n <- gets connectionErrors ;;
  logger_error ("Database connection test failed (Error #" ++ show n ++ "):")
               [AError error] ;;
  logger_error "Error details:"
    [ADetails (code error) (errno error) (sqlState error) (sqlMessage error)] ;;
  logByCode error ;;
  throw error.

Definition testConnection (logSuccess : bool) (io : Driver) : Meth (option bool) :=
  tryCatch (testConnection_try logSuccess io) testConnection_catch.

(** the delay of the attempt numbered [attempt], for the draw [rnd] of
    [Math.random()] *)
#[warnings="-inexact-float"] Definition backoffDelay
    (base : float) (attempt : Z) (rnd : float) : float :=
  Math_min 30000 (base * Math_pow 1.5 (attempt - 1) * (1 + rnd * 0.2))%float.

(** [scheduleReconnect()] *)
Definition scheduleReconnect (rnd : float) : Meth unit :=
  a <- gets reconnectAttempts ;;
  mx <- gets maxReconnectAttempts ;;
  if mx <=? a then
    logger_error ("Maximum reconnection attempts (" ++ show mx ++ ") reached. Giving up.") []
  else
    modify (fun s => set_reconnectAttempts (reconnectAttempts s + 1) s) ;;
    base <- gets reconnectDelay ;;
    n <- gets reconnectAttempts ;;
    let delay := backoffDelay base n rnd in
    logger_info ("Scheduling database reconnection attempt #" ++ show n ++ " in "
                 ++ showRounded (delay / 1000)%float ++ " seconds") [] ;;
    setTimeout CbInitialize delay ;;
    ret tt.

(** [cleanup()]; [poolEnd] is how the promise of [pool.end()] settles *)
Definition cleanup (poolEnd : completion unit) : Meth unit :=
  logger_info "Closing database connection pool" [] ;;
  hc <- gets healthCheck ;;
  match hc with
  | Some h => clearInterval h ;; modify (set_healthCheck None)
  | None => ret tt
  end ;;
  p <- gets pool ;;
  match p with
  | Some h =>
      modify (fun s => set_endedPools (endedPools s ++ [h]) s) ;;
      match poolEnd with
      | Normal _ => ret tt
      | Abrupt err => logger_error "Error closing database connection pool:" [AError err]
      end
  | None => ret tt
  end.

(** [getPool()] *)
Definition getPool : Meth (option nat) := gets pool.

(** [query(sql, params = [])] *)
Definition query (sql : string) (params : list string) (execute : completion Rows)
  : Meth Rows :=
  tryCatch
    (p <- gets pool ;;
     match p with
     | None => throw (TypeError "Cannot read properties of null (reading 'execute')")
     | Some _ => results <- await execute ;; ret results
     end)
    (fun error =>
       logger_error "Database query error:" [AError error] ;;
       logger_error "Query:" [AText sql] ;;
       logger_error "Parameters:" [AParams params] ;;
       throw error).

(** [getConnection()] *)
Definition getConnection (poolGetConnection : completion unit) : Meth unit :=
  tryCatch
    (p <- gets pool ;;
     match p with
     | None => throw (TypeError "Cannot read properties of null (reading 'getConnection')")
     | Some _ => await poolGetConnection
     end)
    (fun error =>
       logger_error "Error getting database connection:" [AError error] ;;
       throw error).

(** [initializeSchema()] *)
Definition initializeSchema (io : SchemaIO) : Meth unit :=
  getConnection (sGetConn io) ;;
  tryFinally
    (tryCatch
       (logger_info "Initializing database schema..." [] ;;
        resolve "URL" ;;
        resolve "fs" ;;
        schema <- await (sReadFile io) ;;
        let statements :=
          filter (fun s => negb (Nat.eqb (List.length s) 0))
                 (map trim (split semicolon schema)) in
        forOf statements
              (fun sql => await (sExecute io (sql ++ [semicolon])%list)) ;;
        logger_info "Database schema initialized successfully" [])
       (fun error =>
          logger_error "Error initializing database schema:" [AError error] ;;
          throw error))
    (await (sRelease io)).

(** [initialize()], its [try] block *)
Definition initialize_try (io : InitIO) : Meth unit :=
  dbConfig <- await (iConfig io) ;;
  logger_info "Initializing database connection with config:"
    [AConfig (host dbConfig) (user dbConfig) (name dbConfig)
             (connectionLimit dbConfig)] ;;
  await (iCreatePool io) ;;
  h <- fresh ;;
  modify (set_pool (Some h)) ;;
  logger_info "Database connection pool initialized" [] ;;
  setupConnectionMonitoring ;;
  testConnection true (iTest io) ;;
  initializeSchema (iSchema io).

(** its [catch (error)] block *)
Definition initialize_catch (rnd : float) (error : Error) : Meth unit :=
  logger_error "Failed to initialize database connection pool:" [AError error] ;;
  modify (set_isConnected false) ;;
  scheduleReconnect rnd.

Definition initialize (io : InitIO) : Meth unit :=
  tryCatch (initialize_try io) (initialize_catch (iRandom io)).

(** the callback given to [setInterval] in [setupConnectionMonitoring]:
    its [catch (error)] block, and the callback *)
Definition healthCheck_catch (rnd : float) (error : Error) : Meth unit :=
  logger_error "Database health check failed:" [AError error] ;;
  c <- gets isConnected ;;
  if c then
    modify (set_isConnected false) ;;
    scheduleReconnect rnd
  else ret tt.

Definition healthCheckCallback (io : Driver) (rnd : float) : Meth unit :=
  tryCatch (testConnection false io ;; ret tt) (healthCheck_catch rnd).

(** [new Database()] *)
Definition construct (io : InitIO) : completion unit * State :=
  initialize io fieldsOfNew.

(** ** Events of the host and the operations on a [Database] *)

Definition runCallback (cb : Callback) (io : InitIO) : Meth unit :=
  match cb with
  | CbInitialize => initialize io
  | CbHealthCheck => healthCheckCallback (iTest io) (iRandom io)
  end.

(** a pending timeout expires: it leaves the timer table and its callback
    runs *)
Definition fireTimeout (h : nat) (io : InitIO) : Meth unit :=
  ts <- gets timeouts ;;
  match find (fun t => Nat.eqb (tHandle t) h) ts with
  | None => ret tt
  | Some t =>
      modify (fun s =>
        set_timeouts (filter (fun t => negb (Nat.eqb (tHandle t) h)) (timeouts s)) s) ;;
      runCallback (tCallback t) io
  end.

(** an active interval ticks *)
Definition tickInterval (h : nat) (io : InitIO) : Meth unit :=
  ivs <- gets intervals ;;
  match find (fun i => Nat.eqb (iHandle i) h) ivs with
  | None => ret tt
  | Some i => runCallback (iCallback i) io
  end.

(** [process.exit(0)] emits ['exit'] *)
Definition runExit (poolEnd : completion unit) : Meth unit :=
  ls <- gets listeners ;;
  forOf (filter (fun l => String.eqb (fst l) "exit") ls)
        (fun _ => cleanup poolEnd).

Fixpoint runListeners (ls : list (string * Listener)) (poolEnd : completion unit)
  : Meth unit :=
  match ls with
  | [] => ret tt
  | (_, LCleanup) :: rest => cleanup poolEnd ;; runListeners rest poolEnd
  | (_, LCleanupExit) :: _ => cleanup poolEnd ;; runExit poolEnd
  end.

(** the process emits ['exit'], ['SIGINT'] or ['SIGTERM'] *)
Definition emit (ev : string) (poolEnd : completion unit) : Meth unit :=
  ls <- gets listeners ;;
  runListeners (filter (fun l => String.eqb (fst l) ev) ls) poolEnd.

Inductive Op :=
| OpInitialize (io : InitIO)
| OpSetupConnectionMonitoring
| OpTestConnection (logSuccess : bool) (io : Driver)
| OpScheduleReconnect (rnd : float)
| OpCleanup (poolEnd : completion unit)
| OpGetPool
| OpQuery (sql : string) (params : list string) (execute : completion Rows)
| OpGetConnection (poolGetConnection : completion unit)
| OpInitializeSchema (io : SchemaIO)
| OpTimeout (h : nat) (io : InitIO)
| OpInterval (h : nat) (io : InitIO)
| OpProcess (ev : string) (poolEnd : completion unit).

Definition void {A} (m : Meth A) : Meth unit := m ;; ret tt.

Definition run (op : Op) : Meth unit :=
  match op with
  | OpInitialize io => initialize io
  | OpSetupConnectionMonitoring => setupConnectionMonitoring
  | OpTestConnection l io => void (testConnection l io)
  | OpScheduleReconnect rnd => scheduleReconnect rnd
  | OpCleanup pe => cleanup pe
  | OpGetPool => void getPool
  | OpQuery sql ps ex => void (query sql ps ex)
  | OpGetConnection c => getConnection c
  | OpInitializeSchema io => initializeSchema io
  | OpTimeout h io => fireTimeout h io
  | OpInterval h io => tickInterval h io
  | OpProcess ev pe => emit ev pe
  end.

Definition exec (op : Op) (s : State) : State := snd (run op s).

Definition execAll (ops : list Op) (s : State) : State :=
  fold_left (fun s op => exec op s) ops s.

(** the states a [Database] object can be in: the constructor's, and
    those any operation leads to *)
Inductive reachable : State -> Prop :=
| reach_new io : reachable (snd (construct io))
| reach_step s op : reachable s -> reachable (exec op s).

(** ** Sample answers of the outside world *)

Definition sampleConfig : DbConfig :=
  mkDbConfig "localhost" "root" "secret" "quiz" 10 0.

Definition refused : Error :=
  mkError "Error" "connect ECONNREFUSED 127.0.0.1:3306"
          (Some "ECONNREFUSED") (Some (-111)) None None.

(** the server answers every statement *)
Definition driverUp : Driver :=
  mkDriver (Normal sampleConfig) (Normal tt) (Normal 1%nat) (Normal tt)
           (Normal tt) (Normal [Some 1]) (Normal tt).

(** the server refuses connections *)
Definition driverDown : Driver :=
  mkDriver (Normal sampleConfig) (Abrupt refused) (Normal 1%nat) (Normal tt)
           (Normal tt) (Normal [Some 1]) (Normal tt).

Definition schemaIOUp : SchemaIO :=
  mkSchemaIO (Normal tt) (Normal []) (fun _ => Normal tt) (Normal tt).

Definition initUp (rnd : float) : InitIO :=
  mkInitIO (Normal sampleConfig) (Normal tt) driverUp schemaIOUp rnd.

Definition initDown (rnd : float) : InitIO :=
  mkInitIO (Normal sampleConfig) (Normal tt) driverDown schemaIOUp rnd.

End Db.

(* ===================================================================== *)
(** * The schema (database.sql) *)
(* ===================================================================== *)

Module Sql.

Open Scope string_scope.
Open Scope Z_scope.

(** ** The data definition statements, as the file writes them *)

Inductive sqlType :=
| INT
| VARCHAR (n : Z)
| TEXT
| ENUM (labels : list string)
| TIMESTAMP
| JSON.

Inductive defaultValue :=
| DefaultText (s : string)
| DefaultInt (n : Z)
| CURRENT_TIMESTAMP.

Inductive keyKind := NoKey | PRIMARY_KEY | UNIQUE.

Record column := mkColumn {
  cName : string;
  cType : sqlType;
  cNotNull : bool;
  cKey : keyKind;
  cAutoIncrement : bool;
  cDefault : option defaultValue;
  cOnUpdateCurrentTimestamp : bool
}.

(** the action of [ON DELETE]; a foreign key without the clause has
    [NO_ACTION] *)
Inductive refAction := CASCADE | SET_NULL | RESTRICT | NO_ACTION.

Record foreignKey := mkForeignKey {
  fkColumn : string;
  fkTable : string;
  fkRefColumn : string;
  fkOnDelete : refAction
}.

Record index := mkIndex {
  ixUnique : bool;
  ixName : string;
  ixColumn : string
}.

Record tableDef := mkTableDef {
  tName : string;
  tColumns : list column;
  tForeignKeys : list foreignKey;
  tIndexes : list index;
  tEngine : string;
  tCharset : string;
  tCollate : string
}.

Inductive statement :=
| CREATE_TABLE (ifNotExists : bool) (def : tableDef).

Definition col (n : string) (t : sqlType) : column :=
  mkColumn n t false NoKey false None false.

(** [FOREIGN KEY (user_id) REFERENCES users(id) ON DELETE CASCADE] *)
Definition quizzes_user_fk : foreignKey :=
  mkForeignKey "user_id" "users" "id" CASCADE.

(** [FOREIGN KEY (quiz_id) REFERENCES quizzes(id) ON DELETE CASCADE] *)
Definition questions_quiz_fk : foreignKey :=
  mkForeignKey "quiz_id" "quizzes" "id" CASCADE.

Definition users : tableDef :=
  mkTableDef "users"
    [ mkColumn "id" INT false PRIMARY_KEY true None false;
      mkColumn "email" (VARCHAR 255) true UNIQUE false None false;
      mkColumn "password" (VARCHAR 255) true NoKey false None false;
      col "name" (VARCHAR 255);
      mkColumn "role" (ENUM ["admin"; "user"]) false NoKey false
               (Some (DefaultText "user")) false;
      mkColumn "created_at" TIMESTAMP false NoKey false (Some CURRENT_TIMESTAMP) false;
      mkColumn "updated_at" TIMESTAMP false NoKey false (Some CURRENT_TIMESTAMP) true;
      col "last_login" TIMESTAMP ]
    []
    [ mkIndex true "email_idx" "email" ]
    "InnoDB" "utf8mb4" "utf8mb4_unicode_ci".

Definition quizzes : tableDef :=
  mkTableDef "quizzes"
    [ mkColumn "id" INT false PRIMARY_KEY true None false;
      mkColumn "user_id" INT true NoKey false None false;
      mkColumn "title" (VARCHAR 255) true NoKey false None false;
      col "description" TEXT;
      col "topic" (VARCHAR 255);
      mkColumn "difficulty" (ENUM ["easy"; "medium"; "hard"]) false NoKey false
               (Some (DefaultText "medium")) false;
      mkColumn "created_at" TIMESTAMP false NoKey false (Some CURRENT_TIMESTAMP) false;
      mkColumn "updated_at" TIMESTAMP false NoKey false (Some CURRENT_TIMESTAMP) true ]
    [ quizzes_user_fk ]
    [ mkIndex false "user_id_idx" "user_id"; mkIndex false "title_idx" "title" ]
    "InnoDB" "utf8mb4" "utf8mb4_unicode_ci".

Definition questions : tableDef :=
  mkTableDef "questions"
    [ mkColumn "id" INT false PRIMARY_KEY true None false;
      mkColumn "quiz_id" INT true NoKey false None false;
      mkColumn "question_text" TEXT true NoKey false None false;
      mkColumn "question_type" (ENUM ["multiple_choice"; "true_false"; "short_answer"])
               false NoKey false (Some (DefaultText "multiple_choice")) false;
      mkColumn "correct_answer" TEXT true NoKey false None false;
      col "options" JSON;
      col "explanation" TEXT;
      mkColumn "points" INT false NoKey false (Some (DefaultInt 1)) false;
      mkColumn "created_at" TIMESTAMP false NoKey false (Some CURRENT_TIMESTAMP) false ]
    [ questions_quiz_fk ]
    [ mkIndex false "quiz_id_idx" "quiz_id" ]
    "InnoDB" "utf8mb4" "utf8mb4_unicode_ci".

Definition created (st : statement) : string :=
  match st with CREATE_TABLE _ def => tName def end.

Definition ifNotExists (st : statement) : bool :=
  match st with CREATE_TABLE b _ => b end.

(** the three statements of the file, in order *)
Definition schema : list statement :=
  [ CREATE_TABLE true users; CREATE_TABLE true quizzes; CREATE_TABLE true questions ].

(** ** Database states *)

Inductive value :=
| NULL
| Int (n : Z)
| Text (s : string).

(** a row gives a value to column names *)
Definition row := list (string * value).

Record table := mkTable {
  tDef : tableDef;
  tRows : list row
}.

(** the tables of a database, in the order of their creation *)
Definition database := list table.

Definition named (n : string) (t : table) : bool := String.eqb (tName (tDef t)) n.

Definition findTable (n : string) (db : database) : option table :=
  find (named n) db.

Definition rowsOf (n : string) (db : database) : list row :=
  match findTable n db with
  | Some t => tRows t
  | None => []
  end.

Definition get (c : string) (r : row) : value :=
  match find (fun cv => String.eqb (fst cv) c) r with
  | Some cv => snd cv
  | None => NULL
  end.

(** equality of two values in a foreign key comparison: [NULL] matches
    nothing *)
Definition matches (v w : value) : bool :=
  match v, w with
  | Int a, Int b => Z.eqb a b
  | Text a, Text b => String.eqb a b
  | _, _ => false
  end.

(** the child row [r] refers, through [fk], to the parent row [p] *)
Definition refersTo (fk : foreignKey) (r p : row) : bool :=
  matches (get (fkColumn fk) r) (get (fkRefColumn fk) p).

Definition refersToAny (fk : foreignKey) (parents : list row) (r : row) : bool :=
  existsb (refersTo fk r) parents.

(** every row of every table has a parent row for each of its foreign
    keys *)
Definition noOrphans (db : database) : Prop :=
  forall t fk r,
    In t db -> In fk (tForeignKeys (tDef t)) -> In r (tRows t) ->
    exists p, In p (rowsOf (fkTable fk) db) /\ refersTo fk r p = true.

(** a state of the three tables of the schema *)
Definition state (us qs ps : list row) : database :=
  [ mkTable users us; mkTable quizzes qs; mkTable questions ps ].

(** ** The engine *)

(** Modelled from the spec: the engine that executes the statements is
    the MySQL server, which is not part of the repository.  [CREATE TABLE]
    adds an empty table; it fails when the table exists, unless
    [IF NOT EXISTS] is given, in which case the statement does nothing; it
    fails when a foreign key names a table that does not exist. *)
Definition execute (st : statement) (db : database) : option database :=
  match st with
  | CREATE_TABLE ine def =>
      match findTable (tName def) db with
      | Some _ => if ine then Some db else None
      | None =>
          if forallb
               (fun fk =>
                  (String.eqb (fkTable fk) (tName def)
                   || match findTable (fkTable fk) db with
                      | Some _ => true
                      | None => false
                      end)%bool)
               (tForeignKeys def)
          then Some (db ++ [mkTable def []])%list
          else None
      end
  end.

(** Modelled from the spec: the client sends the statements of a script
    one by one; the script stops at the first statement that fails. *)
Fixpoint executeAll (sts : list statement) (db : database) : option database :=
  match sts with
  | [] => Some db
  | st :: rest =>
      match execute st db with
      | Some db' => executeAll rest db'
      | None => None
      end
  end.

(** the foreign keys of [db] that reference the table [parent], each with
    the name of the table that declares it *)
Definition referencing (parent : string) (db : database)
  : list (string * foreignKey) :=
  flat_map
    (fun t => map (fun fk => (tName (tDef t), fk))
                  (filter (fun fk => String.eqb (fkTable fk) parent)
                          (tForeignKeys (tDef t))))
    db.

Definition setRows (n : string) (f : list row -> list row) (db : database)
  : database :=
  map (fun t => if named n t then mkTable (tDef t) (f (tRows t)) else t) db.

Definition setColumn (c : string) (v : value) (r : row) : row :=
  map (fun cv => if String.eqb (fst cv) c then (fst cv, v) else cv) r.

(** Modelled from the spec: the engine that executes [DELETE] is the MySQL
    server, which is not part of the repository.  Deleting the rows of
    [name] selected by [doomed] first applies, for every foreign key that
    references [name], the action the key declares to the rows that refer
    to a deleted row: [CASCADE] deletes them in the same way, [SET NULL]
    clears the column, [RESTRICT] and [NO ACTION] reject the statement.
    [fuel] bounds the depth of the cascade; [None] is a rejected
    statement. *)
Fixpoint deleteFrom (fuel : nat) (name : string) (doomed : row -> bool)
         (db : database) : option database :=
  match fuel with
  | O => None
  | S fuel' =>
      match findTable name db with
      | None => None
      | Some t =>
          let victims := filter doomed (tRows t) in
          let children :=
            fold_left
              (fun acc cfk =>
                 match acc with
                 | None => None
                 | Some d =>
                     let child := fst cfk in
                     let fk := snd cfk in
                     match fkOnDelete fk with
                     | CASCADE =>
                         deleteFrom fuel' child (refersToAny fk victims) d
                     | SET_NULL =>
                         Some (setRows child
                                 (map (fun r => if refersToAny fk victims r
                                                then setColumn (fkColumn fk) NULL r
                                                else r)) d)
                     | RESTRICT | NO_ACTION =>
                         if existsb (refersToAny fk victims) (rowsOf child d)
                         then None else Some d
                     end
                 end)
              (referencing name db) (Some db) in
          match children with
          | None => None
          | Some d => Some (setRows name (filter (fun r => negb (doomed r))) d)
          end
      end
  end.

(** the rows that survive the deletion of the parents [gone] *)
Definition surviving (fk : foreignKey) (gone : list row) (rows : list row)
  : list row :=
  filter (fun r => negb (refersToAny fk gone r)) rows.

(** the rows deleted with their parents [gone] *)
Definition cascaded (fk : foreignKey) (gone : list row) (rows : list row)
  : list row :=
  filter (refersToAny fk gone) rows.

(** ** Sample rows *)

Definition alice : row := [("id", Int 1); ("email", Text "alice@example.org")].
Definition bob : row := [("id", Int 2); ("email", Text "bob@example.org")].
Definition quizA : row := [("id", Int 10); ("user_id", Int 1); ("title", Text "A")].
Definition quizB : row := [("id", Int 11); ("user_id", Int 2); ("title", Text "B")].
Definition questionA1 : row := [("id", Int 100); ("quiz_id", Int 10)].
Definition questionA2 : row := [("id", Int 101); ("quiz_id", Int 10)].
Definition questionB1 : row := [("id", Int 102); ("quiz_id", Int 11)].

Definition sample : database :=
  state [alice; bob] [quizA; quizB] [questionA1; questionA2; questionB1].

Definition isAlice (r : row) : bool := matches (get "id" r) (Int 1).

End Sql.

(* ===================================================================== *)
(** * The global error handler of the browser side *)
(* ===================================================================== *)

Module Browser.

Import Js.
Open Scope string_scope.
Open Scope js_scope.

(** what an event carries in [event.error] or [event.reason] *)
Inductive payload :=
| Undefined
| Thrown (e : Error)
| Other (description : string).

(** an [ErrorEvent] or [PromiseRejectionEvent] *)
Record Event := mkEvent {
  type : string;
  error : payload;
  reason : payload;
  cancelable : bool;
  defaultPrevented : bool
}.

(** the calls a listener makes, in order *)
Inductive Call :=
| console_error_call (msg : string) (arg : payload)
| preventDefault_call.

(** the two arrow functions given to [addEventListener] *)
Inductive Listener :=
| onError
| onUnhandledRejection.

Record Window := mkWindow {
  listeners : list (string * Listener)
}.

(** the state of one dispatch: the event and the calls made so far *)
Record Dispatch := mkDispatch {
  event : Event;
  calls : list Call
}.

Definition console_error (msg : string) (arg : payload) : M Dispatch unit :=
  modify (fun d => mkDispatch (event d) (calls d ++ [console_error_call msg arg])).

(** [event.preventDefault()]: sets the canceled flag of a cancelable
    event *)
Definition preventDefault : M Dispatch unit :=
  modify (fun d =>
    let ev := event d in
    mkDispatch
      (mkEvent (type ev) (error ev) (reason ev) (cancelable ev)
               (cancelable ev || defaultPrevented ev))
      (calls d ++ [preventDefault_call])).

(** [process.env.NODE_ENV === 'production'] *)
Definition isProduction (NODE_ENV : option string) : bool :=
  match NODE_ENV with
  | Some v => String.eqb v "production"
  | None => false
  end.

(** the body of a listener; the branch for production holds a comment
    only *)
Definition listener (l : Listener) (NODE_ENV : option string) : M Dispatch unit :=
  match l with
  | onError =>
      ev <- gets event ;;
      console_error "Global error caught:" (error ev) ;;
      (if isProduction NODE_ENV then ret tt else ret tt) ;;
      preventDefault
  | onUnhandledRejection =>
      ev <- gets event ;;
      console_error "Unhandled promise rejection:" (reason ev) ;;
      (if isProduction NODE_ENV then ret tt else ret tt) ;;
      preventDefault
  end.

Definition addEventListener (ty : string) (l : Listener) (w : Window) : Window :=
  mkWindow (listeners w ++ [(ty, l)]).

(** [setupGlobalErrorHandler()] *)
Definition setupGlobalErrorHandler (w : Window) : Window :=
  addEventListener "unhandledrejection" onUnhandledRejection
    (addEventListener "error" onError w).

(** the window delivers [ev] to the listeners of its type, in the order of
    their registration *)
Definition dispatchEvent (w : Window) (NODE_ENV : option string) (ev : Event)
  : completion unit * Dispatch :=
  forOf (filter (fun tl => String.eqb (fst tl) (type ev)) (listeners w))
        (fun tl => listener (snd tl) NODE_ENV)
        (mkDispatch ev []).

Definition newWindow : Window := mkWindow [].

(** the event after [preventDefault] *)
Definition prevented (ev : Event) : Event :=
  mkEvent (type ev) (error ev) (reason ev) (cancelable ev)
          (cancelable ev || defaultPrevented ev).


End Browser.

(* ===================================================================== *)
(** * The validation middleware *)
(* ===================================================================== *)

Module Middleware.

Import Js.
Open Scope string_scope.
Open Scope Z_scope.
Open Scope js_scope.

(** an error of express-validator *)
Record ValidationError := mkValidationError {
  param : string;
  msg : string;
  value : string;
  location : string
}.

(** one entry of the [errors] array of the response *)
Record FieldError := mkFieldError {
  field : string;
  message : string
}.

(** the body [{ success, errors }] *)
Record Body := mkBody {
  success : bool;
  errors : list FieldError
}.

(** the request, as far as [validationResult(req)] reads it *)
Record Request := mkRequest {
  validationErrors : list ValidationError
}.

(** the response object and the [next] callback *)
Record Exchange := mkExchange {
  statusCode : Z;
  sent : list Body;       (* one entry per response sent *)
  nextCalls : nat
}.

Definition newExchange : Exchange := mkExchange 200 [] 0.

(** [validationResult(req)], with its methods [isEmpty()] and [array()] *)
Definition validationResult (req : Request) : list ValidationError :=
  validationErrors req.

Definition isEmpty (r : list ValidationError) : bool :=
  match r with
  | [] => true
  | _ :: _ => false
  end.

Definition array (r : list ValidationError) : list ValidationError := r.

(** [res.status(code)] *)
Definition status (code : Z) : M Exchange unit :=
  modify (fun x => mkExchange code (sent x) (nextCalls x)).

(** [res.json(body)] *)
Definition json (body : Body) : M Exchange unit :=
  modify (fun x => mkExchange (statusCode x) (sent x ++ [body]) (nextCalls x)).

(** [next()] *)
Definition next : M Exchange unit :=
  modify (fun x => mkExchange (statusCode x) (sent x) (S (nextCalls x))).

(** [validate(req, res, next)] *)
Definition validate (req : Request) : M Exchange unit :=
  let errors := validationResult req in
  if negb (isEmpty errors) then
    status 400 ;;
    json (mkBody false
            (map (fun error => mkFieldError (param error) (msg error))
                 (array errors)))
  else
    next.

End Middleware.

(* ===================================================================== *)
(** * Predicates used to state the properties of the connection manager *)
(* ===================================================================== *)

Module DbSpec.

Import Js Db.
Open Scope string_scope.
Open Scope Z_scope.

(** [m] relates every state to the one it leaves behind, whether it
    returns or throws. *)
Definition Rel {A} (R : State -> State -> Prop) (m : Meth A) : Prop :=
  forall s, R s (snd (m s)).

(** [Q] holds of the completion and the final state of [m] started in [s] *)
Definition wp {A} (m : Meth A) (Q : completion A -> State -> Prop) (s : State)
  : Prop :=
  Q (fst (m s)) (snd (m s)).

(** the fields only the timer and pool primitives write are unchanged *)
Definition sameHost (s s' : State) : Prop :=
  pool s' = pool s /\ maxReconnectAttempts s' = maxReconnectAttempts s /\
  reconnectDelay s' = reconnectDelay s /\ healthCheck s' = healthCheck s /\
  timeouts s' = timeouts s /\ intervals s' = intervals s /\
  listeners s' = listeners s /\ nextHandle s' = nextHandle s /\
  endedPools s' = endedPools s.

(** the reconnection parameters, the counter and the pending timeouts are
    unchanged *)
Definition quiet (s s' : State) : Prop :=
  maxReconnectAttempts s' = maxReconnectAttempts s /\
  reconnectDelay s' = reconnectDelay s /\
  reconnectAttempts s' = reconnectAttempts s /\
  timeouts s' = timeouts s.

(** the invariant of the reconnection counter *)
Definition Inv (s : State) : Prop :=
  maxReconnectAttempts s = 10 /\ reconnectDelay s = 5000%float /\
  0 <= reconnectAttempts s <= 10.

Definition keepsInv (s s' : State) : Prop := Inv s -> Inv s'.

Definition alwaysThrows {A} (m : Meth A) : Prop :=
  forall s, exists e s', m s = (Abrupt e, s').

(** the answers of the driver let a connection test reach the statements
    that mark the connection as established *)
Definition testPasses (io : Driver) : bool :=
  match getConn io, tConfig io, schemata io, selectOne io with
  | Normal _, Normal _, Normal n, Normal (Some 1 :: _) =>
      if Nat.eqb n 0 then
        match createDatabase io, useDatabase io with
        | Normal _, Normal _ => true
        | _, _ => false
        end
      else true
  | _, _, _, _ => false
  end.

(** the table of the specification: driver error code to message *)
Definition messageForCode (c : option string) : option string :=
  match c with
  | None => None
  | Some c =>
      if String.eqb c "ER_ACCESS_DENIED_ERROR" then
        Some "Access denied. Please check database username and password."
      else if String.eqb c "ECONNREFUSED" then
        Some "Connection refused. Please check if MySQL server is running."
      else if String.eqb c "ER_BAD_DB_ERROR" then
        Some "Database does not exist."
      else None
  end.

(** the entry the specification expects last in the log of a failed test *)
Definition humanReadable (e : Error) : LogEntry :=
  match messageForCode (code e) with
  | Some m => mkLog Err m []
  | None => mkLog Err "Unknown database error:" [AText (message e)]
  end.

(** which operations a statement ranges over, given the connection tests
    it admits *)
Definition admits (okTest : Driver -> Prop) (op : Op) : Prop :=
  match op with
  | OpInitialize io | OpTimeout _ io | OpInterval _ io => okTest (iTest io)
  | OpTestConnection _ io => okTest io
  | _ => True
  end.

(** operations during which no connection test passes *)
Definition noTestPasses : Op -> Prop :=
  admits (fun io => testPasses io = false).

(** the reading of the specification under which giving up is final: once
    the counter stands at 10, no operation adds a timeout *)
Definition capIsFinal : Prop :=
  forall s ops, reachable s -> reconnectAttempts s = 10 ->
                incl (timeouts (execAll ops s)) (timeouts s).


(** the counter stands at the cap and no timeout was added since [s0] *)
Definition atCap (s0 s : State) : Prop :=
  maxReconnectAttempts s = 10 /\ reconnectAttempts s = 10 /\
  incl (timeouts s) (timeouts s0).

Definition keepsCap (s0 s s' : State) : Prop := atCap s0 s -> atCap s0 s'.

(** ten timeouts expire while the outside world answers as [io] does; the
    handles are those the run allocates (three per [initialize]) *)
Definition tenRetries (io : InitIO) : list Op :=
  map (fun h => OpTimeout h io) [2; 5; 8; 11; 14; 17; 20; 23; 26; 29]%nat.

(** how many calls of [initialize] ended in the [catch] block *)
Definition failures (s : State) : nat :=
  List.length
    (filter (fun e => String.eqb (text e)
               "Failed to initialize database connection pool:") (log s)).

(** the jitter factor of [scheduleReconnect] for a draw of [Math.random()]:
    [1 + Math.random() * 0.2], in binary64 *)
#[warnings="-inexact-float"] Definition jitter (rnd : float) : float :=
  (1 + rnd * 0.2)%float.

(** the float [x] is finite and stands for exactly the rational [q] *)
Definition represents (x : float) (q : Q) : Prop :=
  match toQ x with
  | Some v => (v == q)%Q
  | None => False
  end.

(** [min(30000, 5000 * 1.5^(n-1) * j)] in exact arithmetic *)
Definition exactDelay (n : Z) (j : Q) : Q :=
  Qmin 30000 (5000 * Qpower (3 # 2) (n - 1) * j)%Q.

(** the counter of reconnection attempts is unchanged *)
Definition sameAttempts (s s' : State) : Prop :=
  reconnectAttempts s' = reconnectAttempts s.

End DbSpec.

(* ===================================================================== *)
(** * Further predicates on the states of the connection manager *)
(* ===================================================================== *)

Module DbMore.

Import Js Db.
Open Scope string_scope.
Open Scope Z_scope.
Open Scope list_scope.

(** the listeners one call of [setupConnectionMonitoring] registers *)
Definition monitoringListeners : list (string * Listener) :=
  [("exit", LCleanup); ("SIGINT", LCleanupExit); ("SIGTERM", LCleanupExit)].

(** the only active interval is the health check that [healthCheck]
    refers to *)
Definition oneHealthCheck (s : State) : Prop :=
  intervals s = match healthCheck s with
                | Some h => [mkInterval h 30000 CbHealthCheck]
                | None => []
                end.

(** every handle in use was allocated, pending timeouts have distinct
    handles and call [initialize] *)
Definition handlesFresh (s : State) : Prop :=
  (forall t, In t (timeouts s) ->
     (tHandle t < nextHandle s)%nat /\ tCallback t = CbInitialize) /\
  NoDup (map tHandle (timeouts s)) /\
  (forall i, In i (intervals s) -> (iHandle i < nextHandle s)%nat) /\
  (forall p, pool s = Some p -> (p < nextHandle s)%nat).

(** the process listeners are those of some number of calls of
    [setupConnectionMonitoring] *)
Definition listenersInTriples (s : State) : Prop :=
  exists k, listeners s = List.concat (repeat monitoringListeners k).

Definition hostInv (s : State) : Prop :=
  oneHealthCheck s /\ handlesFresh s /\ listenersInTriples s.

Definition keepsHostInv (s s' : State) : Prop := hostInv s -> hostInv s'.

(** process listeners are only ever added, three at a time *)
Definition listenersGrow (s s' : State) : Prop :=
  exists k, listeners s' = listeners s ++ List.concat (repeat monitoringListeners k).

(** no pool was ended *)
Definition sameEnded (s s' : State) : Prop := endedPools s' = endedPools s.

(** nothing but the log differs *)
Definition exceptLog (s s' : State) : Prop := s' = set_log (log s') s.

(** while the connection is marked established, no error and no
    reconnection attempt is counted *)
Definition connectedIdle (s : State) : Prop :=
  isConnected s = true -> connectionErrors s = 0 /\ reconnectAttempts s = 0.

(** operations other than a call of [scheduleReconnect] from outside *)
Definition notScheduleReconnect (op : Op) : Prop :=
  match op with
  | OpScheduleReconnect _ => False
  | _ => True
  end.

(** operations other than calls of [initialize] and [scheduleReconnect]
    from outside: the timers, the process events, and every other
    method *)
Definition selfDriven (op : Op) : Prop :=
  match op with
  | OpInitialize _ | OpScheduleReconnect _ => False
  | _ => True
  end.

(** the states of an object on which nobody calls [initialize] or
    [scheduleReconnect] after the constructor *)
Inductive drives : State -> Prop :=
| drives_new io : drives (snd (construct io))
| drives_step s op : drives s -> selfDriven op -> drives (exec op s).

(** the answers of the outside world with which a connection test
    returns [true]: the driver lets the test pass and releases the
    connection *)
Definition testSucceeds (io : Driver) : Prop :=
  DbSpec.testPasses io = true /\ releaseConn io = Normal tt.

(** the state in which the [catch] block of [initialize] calls
    [scheduleReconnect] *)
Definition caught (e : Error) (s : State) : State :=
  set_isConnected false
    (set_log (log s ++
       [mkLog Err "Failed to initialize database connection pool:" [AError e]]) s).

(** the state after [initialize] has created its pool *)
Definition poolCreated (c : DbConfig) (s : State) : State :=
  let s1 :=
    set_pool (Some (nextHandle s))
      (set_nextHandle (S (nextHandle s))
         (set_log (log s ++
            [mkLog Info "Initializing database connection with config:"
               [AConfig (host c) (user c) (name c) (connectionLimit c)]]) s)) in
  set_log (log s1 ++ [mkLog Info "Database connection pool initialized" []]) s1.

(** ... and set up the monitoring *)
Definition monitored (c : DbConfig) (s : State) : State :=
  snd (setupConnectionMonitoring (poolCreated c s)).

(** what the [try] block of [initialize] may change of the reconnection
    machinery: the counter, which it leaves alone or resets *)
Definition tryFrame (s s' : State) : Prop :=
  timeouts s' = timeouts s /\
  maxReconnectAttempts s' = maxReconnectAttempts s /\
  reconnectDelay s' = reconnectDelay s /\
  (reconnectAttempts s' = reconnectAttempts s \/ reconnectAttempts s' = 0).

Definition keepsIdle (s s' : State) : Prop := connectedIdle s -> connectedIdle s'.

(** [m] always completes normally *)
Definition neverThrows (m : Meth unit) : Prop :=
  forall s, fst (m s) = Normal tt.

(** the statements [initializeSchema] derives from the content of the
    schema file: [schema.split(';').map(s => s.trim()).filter(s => s.length > 0)] *)
Definition statementsOf (schema : jsString) : list jsString :=
  filter (fun s => negb (Nat.eqb (List.length s) 0))
         (map trim (split semicolon schema)).

(** the code unit occurs in the string *)
Fixpoint occurs (c : N) (s : jsString) : bool :=
  match s with
  | [] => false
  | d :: rest => (N.eqb d c || occurs c rest)%bool
  end.

(** [parts.join(sep)] for a separator of one code unit *)
Fixpoint join (sep : N) (parts : list jsString) : jsString :=
  match parts with
  | [] => []
  | [p] => p
  | p :: rest => p ++ sep :: join sep rest
  end.

(** the first and the last code unit of a string *)
Definition firstChar (s : jsString) : option N :=
  match s with
  | [] => None
  | c :: _ => Some c
  end.

Fixpoint lastChar (s : jsString) : option N :=
  match s with
  | [] => None
  | [c] => Some c
  | _ :: rest => lastChar rest
  end.

End DbMore.

(* ===================================================================== *)
(** * The error handler installed more than once *)
(* ===================================================================== *)

Module WebMore.

Import Js Browser.
Open Scope string_scope.

(** [setupGlobalErrorHandler()] called [k] times on the same window *)
Definition setups (k : nat) (w : Window) : Window :=
  Nat.iter k setupGlobalErrorHandler w.

(** the event types [setupGlobalErrorHandler] listens to *)
Definition handled (ty : string) : bool :=
  (String.eqb ty "error" || String.eqb ty "unhandledrejection")%bool.

(** the calls one listener makes for a payload *)
Definition oneHandling (msg : string) (p : payload) : list Call :=
  [console_error_call msg p; preventDefault_call].

(** the event after [k] listeners have run *)
Definition afterListeners (k : nat) (ev : Event) : Event :=
  match k with
  | O => ev
  | S _ => prevented ev
  end.

End WebMore.

(* ===================================================================== *)
(** * Properties of the connection manager *)
(* ===================================================================== *)

Section DatabaseFacts.

Import Js Db DbSpec.
Local Open Scope string_scope.
Local Open Scope Z_scope.

(** ** Relations between the state before and after a method *)

Section Combinators.
Variable R : State -> State -> Prop.
Hypothesis R_refl : forall s, R s s.
Hypothesis R_trans : forall s t u, R s t -> R t u -> R s u.

Lemma rel_ret A (a : A) : Rel R (ret a).
Proof. intro s. apply R_refl. Qed.

Lemma rel_throw A e : Rel R (@throw State A e).
Proof. intro s. apply R_refl. Qed.

Lemma rel_gets A (f : State -> A) : Rel R (gets f).
Proof. intro s. apply R_refl. Qed.

Lemma rel_await A (o : completion A) : Rel R (@await State A o).
Proof. intro s. apply R_refl. Qed.

Lemma rel_modify f : (forall s, R s (f s)) -> Rel R (modify f).
Proof. intros H s. apply H. Qed.

Lemma rel_bind A B (m : Meth A) (k : A -> Meth B) :
  Rel R m -> (forall a, Rel R (k a)) -> Rel R (bind m k).
Proof.
  intros Hm Hk s. unfold bind. specialize (Hm s).
  destruct (m s) as [[a|e] s1]; cbn in *; [|assumption].
  eapply R_trans; [eassumption | apply Hk].
Qed.

Lemma rel_tryCatch A (m : Meth A) h :
  Rel R m -> (forall e, Rel R (h e)) -> Rel R (tryCatch m h).
Proof.
  intros Hm Hh s. unfold tryCatch. specialize (Hm s).
  destruct (m s) as [[a|e] s1]; cbn in *; [assumption|].
  eapply R_trans; [eassumption | apply Hh].
Qed.

Lemma rel_tryFinally A (m : Meth A) f :
  Rel R m -> Rel R f -> Rel R (tryFinally m f).
Proof.
  intros Hm Hf s. unfold tryFinally. specialize (Hm s).
  destruct (m s) as [c s1]; cbn in *. specialize (Hf s1).
  destruct (f s1) as [[u|e] s2]; cbn in *; eapply R_trans; eassumption.
Qed.

Lemma rel_forOf A (xs : list A) body :
  (forall x, Rel R (body x)) -> Rel R (forOf xs body).
Proof.
  intros Hb. induction xs as [|x xs IH]; cbn [forOf].
  - apply rel_ret.
  - apply rel_bind; [apply Hb | intros _; exact IH].
Qed.

Lemma rel_when b m : Rel R m -> Rel R (when b m).
Proof. intros Hm. destruct b; cbn; [assumption | apply rel_ret]. Qed.
End Combinators.

(** one step through the structure of a method *)
Ltac rel_step R Hr Ht :=
  lazymatch goal with
  | |- Rel _ (bind _ _) => apply (@rel_bind R Ht); [ | intro ]
  | |- Rel _ (tryCatch _ _) => apply (@rel_tryCatch R Ht); [ | intro ]
  | |- Rel _ (tryFinally _ _) => apply (@rel_tryFinally R Ht)
  | |- Rel _ (forOf _ _) => apply (@rel_forOf R Hr Ht); intro
  | |- Rel _ (when _ _) => apply (@rel_when R Hr)
  | |- Rel _ (ret _) => apply (@rel_ret R Hr)
  | |- Rel _ (throw _) => apply (@rel_throw R Hr)
  | |- Rel _ (gets _) => apply (@rel_gets R Hr)
  | |- Rel _ (await _) => apply (@rel_await R Hr)
  | |- Rel _ (match ?x with _ => _ end) => destruct x
  | |- Rel _ (modify _) => apply (@rel_modify R); intro
  end.

(** *** Methods that leave the reconnection machinery alone *)

Lemma quiet_refl s : quiet s s.
Proof. repeat split. Qed.

Lemma quiet_trans s t u : quiet s t -> quiet t u -> quiet s u.
Proof. unfold quiet. intuition congruence. Qed.

Ltac quiet_tac :=
  repeat (rel_step quiet quiet_refl quiet_trans); try (repeat split; fail).

Lemma logger_quiet l msg a : Rel quiet (logger l msg a).
Proof. unfold logger. quiet_tac. Qed.

Lemma fresh_quiet : Rel quiet fresh.
Proof. unfold fresh. quiet_tac. Qed.

Lemma clearInterval_quiet h : Rel quiet (clearInterval h).
Proof. unfold clearInterval. quiet_tac. Qed.

Lemma setupConnectionMonitoring_quiet : Rel quiet setupConnectionMonitoring.
Proof.
  unfold setupConnectionMonitoring, setInterval, process_on.
  quiet_tac; first [apply clearInterval_quiet | apply fresh_quiet].
Qed.

Lemma cleanup_quiet pe : Rel quiet (cleanup pe).
Proof.
  unfold cleanup, logger_info, logger_error.
  quiet_tac; first [apply logger_quiet | apply clearInterval_quiet].
Qed.

Lemma query_quiet sql ps ex : Rel quiet (query sql ps ex).
Proof. unfold query, logger_error. quiet_tac; apply logger_quiet. Qed.

Lemma getConnection_quiet c : Rel quiet (getConnection c).
Proof. unfold getConnection, logger_error. quiet_tac; apply logger_quiet. Qed.

Lemma resolve_quiet x : Rel quiet (resolve x).
Proof. unfold resolve. quiet_tac. Qed.

Lemma initializeSchema_quiet io : Rel quiet (initializeSchema io).
Proof.
  unfold initializeSchema, logger_info, logger_error.
  quiet_tac; first [apply logger_quiet | apply getConnection_quiet
                   | apply resolve_quiet].
Qed.

Lemma runExit_quiet pe : Rel quiet (runExit pe).
Proof. unfold runExit. quiet_tac. apply cleanup_quiet. Qed.

Lemma runListeners_quiet ls pe : Rel quiet (runListeners ls pe).
Proof.
  induction ls as [|[ev []] ls IH]; cbn [runListeners]; quiet_tac;
    first [apply cleanup_quiet | apply runExit_quiet | exact IH].
Qed.

Lemma emit_quiet ev pe : Rel quiet (emit ev pe).
Proof. unfold emit. quiet_tac. apply runListeners_quiet. Qed.

(** *** The fields only the timer and pool primitives write *)

Lemma sameHost_refl s : sameHost s s.
Proof. repeat split. Qed.

Lemma sameHost_trans s t u : sameHost s t -> sameHost t u -> sameHost s u.
Proof. unfold sameHost. intuition congruence. Qed.

Ltac host :=
  repeat (rel_step sameHost sameHost_refl sameHost_trans);
  try (repeat split; fail).

Lemma logger_sameHost l msg a : Rel sameHost (logger l msg a).
Proof. unfold logger. host. Qed.

Lemma logByCode_sameHost e : Rel sameHost (logByCode e).
Proof. unfold logByCode, logger_error. host; apply logger_sameHost. Qed.

Lemma testConnection_sameHost l io : Rel sameHost (testConnection l io).
Proof.
  unfold testConnection, testConnection_try, testConnection_catch,
    logger_info, logger_error.
  host; first [apply logger_sameHost | apply logByCode_sameHost].
Qed.

(** *** Every operation, for a relation that the primitives respect *)

Section Operations.
Variable R : State -> State -> Prop.
Variable okTest : Driver -> Prop.
Hypothesis R_refl : forall s, R s s.
Hypothesis R_trans : forall s t u, R s t -> R t u -> R s u.
Hypothesis R_quiet : forall s t, quiet s t -> R s t.
Hypothesis R_test : forall l io, okTest io -> Rel R (testConnection l io).
Hypothesis R_schedule : forall rnd, Rel R (scheduleReconnect rnd).
Hypothesis R_expire : forall s h,
  R s (set_timeouts (filter (fun t => negb (Nat.eqb (tHandle t) h)) (timeouts s)) s).

Lemma quiet_rel A (m : Meth A) : Rel quiet m -> Rel R m.
Proof. intros H s. apply R_quiet, H. Qed.

Ltac ops :=
  repeat (rel_step R R_refl R_trans);
  try (apply R_quiet; repeat split; fail);
  try (apply R_schedule);
  try (apply quiet_rel;
       first [ apply logger_quiet | apply fresh_quiet
             | apply setupConnectionMonitoring_quiet | apply cleanup_quiet
             | apply query_quiet | apply getConnection_quiet
             | apply initializeSchema_quiet | apply emit_quiet ]).

Lemma initialize_rel io : okTest (iTest io) -> Rel R (initialize io).
Proof.
  intros Hok.
  unfold initialize, initialize_try, initialize_catch, logger_info, logger_error.
  ops. now apply R_test.
Qed.

Lemma healthCheckCallback_rel io rnd :
  okTest io -> Rel R (healthCheckCallback io rnd).
Proof.
  intros Hok. unfold healthCheckCallback, healthCheck_catch, logger_error.
  ops. now apply R_test.
Qed.

Lemma runCallback_rel cb io : okTest (iTest io) -> Rel R (runCallback cb io).
Proof.
  intros Hok. destruct cb; cbn [runCallback];
    [now apply initialize_rel | now apply healthCheckCallback_rel].
Qed.

Lemma run_rel op : admits okTest op -> Rel R (run op).
Proof.
  destruct op; cbn [run admits]; intros Hok;
    unfold void, getPool, fireTimeout, tickInterval.
  - now apply initialize_rel.
  - ops.
  - ops. now apply R_test.
  - ops.
  - ops.
  - ops.
  - ops.
  - ops.
  - ops.
  - ops; [apply R_expire | now apply runCallback_rel].
  - ops. now apply runCallback_rel.
  - ops.
Qed.

Lemma execAll_rel ops : Forall (admits okTest) ops -> forall s, R s (execAll ops s).
Proof.
  induction 1 as [|op ops Hop _ IH]; intros s; cbn; [apply R_refl|].
  eapply R_trans; [apply run_rel, Hop | apply IH].
Qed.
End Operations.

(** *** The invariant of the reconnection counter *)

Lemma keepsInv_refl s : keepsInv s s.
Proof. intro H. exact H. Qed.

Lemma keepsInv_trans s t u : keepsInv s t -> keepsInv t u -> keepsInv s u.
Proof. unfold keepsInv. auto. Qed.

Lemma quiet_keepsInv s t : quiet s t -> keepsInv s t.
Proof.
  intros (Hm & Hd & Ha & _) (Im & Id & Ia). unfold Inv.
  rewrite Hm, Hd, Ha. auto.
Qed.

Lemma testConnection_keepsInv l io : Rel keepsInv (testConnection l io).
Proof.
  unfold testConnection, testConnection_try, testConnection_catch, logByCode,
    logger_info, logger_error, logger.
  repeat (rel_step keepsInv keepsInv_refl keepsInv_trans);
    unfold keepsInv, Inv; cbn; intuition lia.
Qed.

(** [scheduleReconnect] increments the counter only below the cap. *)
Lemma scheduleReconnect_keepsInv rnd : Rel keepsInv (scheduleReconnect rnd).
Proof.
  intros s (Hm & Hd & Hr). unfold scheduleReconnect, bind, gets. cbn.
  destruct (Z.leb_spec (maxReconnectAttempts s) (reconnectAttempts s));
    cbn; unfold Inv; cbn; intuition lia.
Qed.

Lemma expire_keepsInv s h :
  keepsInv s (set_timeouts
    (filter (fun t => negb (Nat.eqb (tHandle t) h)) (timeouts s)) s).
Proof. intro H. exact H. Qed.

Lemma run_keepsInv op : Rel keepsInv (run op).
Proof.
  apply (@run_rel keepsInv (fun _ => True)).
  - exact keepsInv_refl.
  - exact keepsInv_trans.
  - exact quiet_keepsInv.
  - intros l io _. apply testConnection_keepsInv.
  - exact scheduleReconnect_keepsInv.
  - exact expire_keepsInv.
  - destruct op; exact I.
Qed.

Lemma Inv_new : Inv fieldsOfNew.
Proof. unfold Inv. cbn. repeat split; lia. Qed.

Lemma reachable_Inv s : reachable s -> Inv s.
Proof.
  induction 1 as [io | s op _ IH].
  - unfold construct. replace (initialize io) with (run (OpInitialize io)) by reflexivity.
    apply run_keepsInv, Inv_new.
  - unfold exec. apply run_keepsInv, IH.
Qed.

Lemma reachable_execAll ops : forall s, reachable s -> reachable (execAll ops s).
Proof.
  induction ops as [|op ops IH]; intros s Hs; cbn; [assumption|].
  apply IH. now apply reach_step.
Qed.

(** ** The back-off delay *)

(** what [scheduleReconnect] does below the cap, written out *)
Lemma scheduleReconnect_below rnd s :
  reconnectAttempts s < maxReconnectAttempts s ->
  let n := reconnectAttempts s + 1 in
  let delay := backoffDelay (reconnectDelay s) n rnd in
  scheduleReconnect rnd s =
    (Normal tt,
     set_timeouts (timeouts s ++ [mkTimeout (nextHandle s) delay CbInitialize])
       (set_nextHandle (S (nextHandle s))
         (set_log (log s ++
            [mkLog Info ("Scheduling database reconnection attempt #" ++ show n
                         ++ " in " ++ showRounded (delay / 1000)%float ++ " seconds")
                   []])
           (set_reconnectAttempts n s)))).
Proof.
  intros H. unfold scheduleReconnect, bind, gets. cbn.
  destruct (Z.leb_spec (maxReconnectAttempts s) (reconnectAttempts s)); [lia|].
  reflexivity.
Qed.

(** what it does at the cap *)
Lemma scheduleReconnect_at_cap rnd s :
  maxReconnectAttempts s <= reconnectAttempts s ->
  scheduleReconnect rnd s =
    (Normal tt,
     set_log (log s ++
       [mkLog Err ("Maximum reconnection attempts (" ++ show (maxReconnectAttempts s)
                   ++ ") reached. Giving up.") []]) s).
Proof.
  intros H. unfold scheduleReconnect, bind, gets. cbn.
  destruct (Z.leb_spec (maxReconnectAttempts s) (reconnectAttempts s)); [|lia].
  reflexivity.
Qed.




(** The delay is not always the value of the formula.  On the third
    attempt, with the draw 0.75, the jitter factor that the code computes
    is a float [j] between 1 and 1.2, and the delay handed to [setTimeout]
    is 12937.499999999998, which is not [5000 * 1.5^2 * j]: the product is
    rounded. *)
#[warnings="-inexact-float"] Lemma C1_delay_is_rounded :
  let s := exec (OpTimeout 2 (initDown 0)) (snd (construct (initDown 0))) in
  exists (j : Q) (d : float),
    reachable s /\ reconnectAttempts s = 2 /\
    represents (jitter 0.75) j /\ (1 <= j)%Q /\ (j <= 1.2)%Q /\
    timeouts (snd (scheduleReconnect 0.75 s))
      = (timeouts s ++ [mkTimeout (nextHandle s) d CbInitialize])%list /\
    d = 12937.499999999998%float /\
    ~ represents d (exactDelay 3 j).
Proof.
  cbv zeta.
  exists (5179139571476070 # 4503599627370496)%Q. eexists.
  split; [apply reach_step, reach_new|].
  split; [vm_compute; reflexivity|].
  split; [vm_compute; reflexivity|].
  split; [vm_compute; discriminate|].
  split; [vm_compute; discriminate|].
  split; [vm_compute; reflexivity|].
  split; [reflexivity|].
  vm_compute. discriminate.
Qed.

(** ** [initializeSchema] and [initialize] *)

Lemma alwaysThrows_bind A B (m : Meth A) (k : A -> Meth B) :
  (forall a, alwaysThrows (k a)) -> alwaysThrows (bind m k).
Proof.
  intros Hk s. unfold bind. destruct (m s) as [[a|e] s1]; [apply Hk | eauto].
Qed.

(** [fs] has no binding in the module *)
Lemma resolve_fs s : resolve "fs" s = (Abrupt (ReferenceError "fs"), s).
Proof. reflexivity. Qed.

Lemma initializeSchema_throws io : alwaysThrows (initializeSchema io).
Proof.
  unfold initializeSchema. apply alwaysThrows_bind. intros _ s.
  unfold tryFinally, tryCatch, bind at 1 2. cbn.
  destruct (sRelease io); eauto.
Qed.

Lemma initialize_try_throws io : alwaysThrows (initialize_try io).
Proof.
  unfold initialize_try.
  do 8 (apply alwaysThrows_bind; intro). apply initializeSchema_throws.
Qed.

Lemma scheduleReconnect_result rnd s :
  fst (scheduleReconnect rnd s) = Normal tt /\
  isConnected (snd (scheduleReconnect rnd s)) = isConnected s.
Proof.
  destruct (Z.lt_ge_cases (reconnectAttempts s) (maxReconnectAttempts s)).
  - rewrite scheduleReconnect_below by assumption. split; reflexivity.
  - rewrite scheduleReconnect_at_cap by assumption. split; reflexivity.
Qed.

(** C3. [initializeSchema] throws on every call, in every state; when it
    obtains its connection the error is the reference error of the unbound
    identifier [fs].  Hence the [try] block of [initialize] never completes:
    every call of [initialize] runs its [catch] block, which sets
    [isConnected] to false and calls [scheduleReconnect]. *)
Theorem C3_initialize_always_fails (io : InitIO) (sio : SchemaIO) (s : State) :
  (exists e s', initializeSchema sio s = (Abrupt e, s')) /\
  (forall h, pool s = Some h -> sGetConn sio = Normal tt -> sRelease sio = Normal tt ->
     fst (initializeSchema sio s) = Abrupt (ReferenceError "fs")) /\
  (exists error s1,
     initialize_try io s = (Abrupt error, s1) /\
     initialize io s =
       scheduleReconnect (iRandom io)
         (set_isConnected false
            (set_log (log s1 ++
               [mkLog Err "Failed to initialize database connection pool:"
                      [AError error]]) s1))) /\
  fst (initialize io s) = Normal tt /\
  isConnected (snd (initialize io s)) = false.
Proof.
  split; [apply initializeSchema_throws|].
  split.
  { intros h Hp Hg Hr. unfold initializeSchema, getConnection, tryFinally, tryCatch,
      bind, gets, await. cbn. rewrite Hp, Hg. cbn. rewrite Hr. reflexivity. }
  destruct (initialize_try_throws io s) as (error & s1 & Htry).
  assert (E : initialize io s =
       scheduleReconnect (iRandom io)
         (set_isConnected false
            (set_log (log s1 ++
               [mkLog Err "Failed to initialize database connection pool:"
                      [AError error]]) s1))).
  { unfold initialize, tryCatch. rewrite Htry. reflexivity. }
  split; [exists error, s1; split; assumption|].
  rewrite E. destruct (scheduleReconnect_result (iRandom io)
    (set_isConnected false
            (set_log (log s1 ++
               [mkLog Err "Failed to initialize database connection pool:"
                      [AError error]]) s1))) as [H1 H2].
  split; [exact H1 | rewrite H2; reflexivity].
Qed.

Lemma C3_initialize_always_fails_witness :
  fst (initializeSchema schemaIOUp (snd (construct (initUp 0))))
    = Abrupt (ReferenceError "fs").
Proof.
  apply (proj1 (proj2 (C3_initialize_always_fails (initUp 0) schemaIOUp
                         (snd (construct (initUp 0))))) 0%nat);
    reflexivity.
Defined.

(** ** The connection test *)

Lemma sameAttempts_refl s : sameAttempts s s.
Proof. reflexivity. Qed.

Lemma sameAttempts_trans s t u :
  sameAttempts s t -> sameAttempts t u -> sameAttempts s u.
Proof. unfold sameAttempts. congruence. Qed.

Ltac attempts :=
  repeat (rel_step sameAttempts sameAttempts_refl sameAttempts_trans);
  try reflexivity.

Lemma logger_sameAttempts l msg a : Rel sameAttempts (logger l msg a).
Proof. unfold logger. attempts. Qed.

Lemma testConnection_catch_sameAttempts e : Rel sameAttempts (testConnection_catch e).
Proof.
  unfold testConnection_catch, logByCode, logger_error.
  attempts; apply logger_sameAttempts.
Qed.

(** *** Following one path through a method *)

Lemma wp_ret A (a : A) Q s : Q (Normal a) s -> wp (ret a) Q s.
Proof. exact (fun H => H). Qed.

Lemma wp_throw A e (Q : completion A -> State -> Prop) s :
  Q (Abrupt e) s -> wp (throw e) Q s.
Proof. exact (fun H => H). Qed.

Lemma wp_gets A (f : State -> A) Q s : Q (Normal (f s)) s -> wp (gets f) Q s.
Proof. exact (fun H => H). Qed.

Lemma wp_modify f Q s : Q (Normal tt) (f s) -> wp (modify f) Q s.
Proof. exact (fun H => H). Qed.

Lemma wp_await A (o : completion A) Q s : Q o s -> wp (await o) Q s.
Proof. exact (fun H => H). Qed.

Lemma wp_bind A B (m : Meth A) (k : A -> Meth B) Q s :
  wp m (fun c s1 => match c with
                    | Normal a => wp (k a) Q s1
                    | Abrupt e => Q (Abrupt e) s1
                    end) s ->
  wp (bind m k) Q s.
Proof. unfold wp, bind. destruct (m s) as [[a|e] s1]; exact (fun H => H). Qed.

Lemma wp_tryCatch A (m : Meth A) h Q s :
  wp m (fun c s1 => match c with
                    | Normal a => Q (Normal a) s1
                    | Abrupt e => wp (h e) Q s1
                    end) s ->
  wp (tryCatch m h) Q s.
Proof. unfold wp, tryCatch. destruct (m s) as [[a|e] s1]; exact (fun H => H). Qed.

Lemma wp_tryFinally A (m : Meth A) f Q s :
  wp m (fun c s1 =>
    wp f (fun c2 s2 => match c2 with
                       | Normal _ => Q c s2
                       | Abrupt e => Q (Abrupt e) s2
                       end) s1) s ->
  wp (tryFinally m f) Q s.
Proof.
  unfold wp, tryFinally. destruct (m s) as [c s1]. cbn.
  destruct (f s1) as [[u|e] s2]; exact (fun H => H).
Qed.

Lemma wp_logger l msg a Q s :
  Q (Normal tt) (set_log (log s ++ [mkLog l msg a]) s) -> wp (logger l msg a) Q s.
Proof. exact (fun H => H). Qed.

Ltac wp_step :=
  lazymatch goal with
  | |- wp (bind _ _) _ _ => apply wp_bind
  | |- wp (tryCatch _ _) _ _ => apply wp_tryCatch
  | |- wp (tryFinally _ _) _ _ => apply wp_tryFinally
  | |- wp (ret _) _ _ => apply wp_ret
  | |- wp (throw _) _ _ => apply wp_throw
  | |- wp (gets _) _ _ => apply wp_gets
  | |- wp (modify _) _ _ => apply wp_modify
  | |- wp (await _) _ _ => apply wp_await
  | |- wp (logger _ _ _) _ _ => apply wp_logger
  | |- wp (logger_info _ _) _ _ => apply wp_logger
  | |- wp (logger_error _ _) _ _ => apply wp_logger
  | |- wp (when ?b _) _ _ => unfold when
  | |- wp (match ?x with _ => _ end) _ _ =>
      first [is_var x; destruct x | destruct x eqn:?]
  | |- match ?x with _ => _ end =>
      first [is_var x; destruct x | destruct x eqn:?]
  end; cbv beta iota.

(** Unless the driver's answers let the test pass, the [try] block leaves
    the counter alone. *)
Lemma testConnection_try_sameAttempts l io :
  testPasses io = false -> Rel sameAttempts (testConnection_try l io).
Proof.
  intros Hp s. unfold sameAttempts.
  change (wp (testConnection_try l io)
            (fun _ s' => reconnectAttempts s' = reconnectAttempts s) s).
  destruct io as [cfg gc sc cd ud so rl].
  unfold testPasses in Hp. cbn in Hp.
  unfold testConnection_try. cbn [getConn tConfig schemata createDatabase
    useDatabase selectOne releaseConn].
  repeat wp_step; cbn in *; try reflexivity; try discriminate.
Qed.

Lemma testConnection_sameAttempts l io :
  testPasses io = false -> Rel sameAttempts (testConnection l io).
Proof.
  intros Hp. unfold testConnection.
  apply (@rel_tryCatch sameAttempts sameAttempts_trans).
  - now apply testConnection_try_sameAttempts.
  - apply testConnection_catch_sameAttempts.
Qed.

(** the [catch] block, written out *)
Lemma testConnection_catch_eq e s :
  testConnection_catch e s =
    (Abrupt e,
     set_log (log s ++
       [ mkLog Err ("Database connection test failed (Error #"
                    ++ show (connectionErrors s + 1) ++ "):") [AError e];
         mkLog Err "Error details:"
               [ADetails (code e) (errno e) (sqlState e) (sqlMessage e)];
         humanReadable e ])
       (set_connectionErrors (connectionErrors s + 1) (set_isConnected false s))).
Proof.
  unfold testConnection_catch, logByCode, humanReadable, messageForCode,
    logger_error, logger, bind, gets, modify, throw. cbn.
  destruct (code e) as [c|]; [|cbn; rewrite <- !app_assoc; reflexivity].
  destruct (String.eqb c "ER_ACCESS_DENIED_ERROR");
    [cbn; rewrite <- !app_assoc; reflexivity|].
  destruct (String.eqb c "ECONNREFUSED");
    [cbn; rewrite <- !app_assoc; reflexivity|].
  destruct (String.eqb c "ER_BAD_DB_ERROR");
    cbn; rewrite <- !app_assoc; reflexivity.
Qed.

(** a failed test is a [try] block that threw, followed by the [catch]
    block *)
Lemma testConnection_throws l io s e s' :
  testConnection l io s = (Abrupt e, s') ->
  exists s1, testConnection_try l io s = (Abrupt e, s1) /\
             testConnection_catch e s1 = (Abrupt e, s').
Proof.
  unfold testConnection, tryCatch.
  destruct (testConnection_try l io s) as [[a|e0] s1]; [discriminate|].
  intros H. assert (e0 = e) as ->.
  { rewrite testConnection_catch_eq in H. congruence. }
  eauto.
Qed.

(** a test that returns [true] from a disconnected state has reset the
    state of the connection *)
Lemma testConnection_try_true l io s :
  isConnected s = false ->
  wp (testConnection_try l io)
     (fun c s' => c = Normal (Some true) ->
                  isConnected s' = true /\ connectionErrors s' = 0 /\
                  reconnectAttempts s' = 0) s.
Proof.
  intros Hc. destruct io as [cfg gc sc cd ud so rl].
  unfold testConnection_try. cbn [getConn tConfig schemata createDatabase
    useDatabase selectOne releaseConn].
  repeat wp_step; cbn in *; intros; try discriminate;
    try (rewrite Hc in *; discriminate); auto.
Qed.

(** C9. Whenever [testConnection] succeeds (returns [true]) while
    [isConnected] is false, it sets [isConnected] to true and resets
    [connectionErrors] and [reconnectAttempts] to 0; the cap is re-armed:
    the next [scheduleReconnect] makes attempt 1 and registers a timeout. *)
Theorem C9_success_resets_counters
    (l : bool) (io : Driver) (s s' : State) (rnd : float) :
  reachable s ->
  isConnected s = false ->
  testConnection l io s = (Normal (Some true), s') ->
  isConnected s' = true /\ connectionErrors s' = 0 /\ reconnectAttempts s' = 0 /\
  reconnectAttempts (snd (scheduleReconnect rnd s')) = 1 /\
  exists t, timeouts (snd (scheduleReconnect rnd s')) = (timeouts s' ++ [t])%list.
Proof.
  intros Hs Hc Ht.
  assert (Hi : Inv s') by
    (replace s' with (snd (testConnection l io s)) by (now rewrite Ht);
     apply testConnection_keepsInv, reachable_Inv, Hs).
  destruct Hi as (Hm & _ & _).
  pose proof (@testConnection_try_true l io s Hc) as Hw. unfold wp in Hw.
  unfold testConnection, tryCatch in Ht.
  destruct (testConnection_try l io s) as [[a|e] s1].
  - inversion Ht; subst. cbn in Hw. destruct (Hw eq_refl) as (H1 & H2 & H3).
    repeat (split; [assumption|]).
    rewrite scheduleReconnect_below by lia. cbn. rewrite H3.
    split; [reflexivity | eauto].
  - rewrite testConnection_catch_eq in Ht. discriminate.
Qed.

Lemma C9_success_resets_counters_witness :
  let s := snd (construct (initDown 0)) in
  let s' := snd (testConnection true driverUp s) in
  isConnected s' = true /\ connectionErrors s' = 0 /\ reconnectAttempts s' = 0 /\
  reconnectAttempts (snd (scheduleReconnect 0 s')) = 1 /\
  exists t, timeouts (snd (scheduleReconnect 0 s')) = (timeouts s' ++ [t])%list.
Proof.
  apply (@C9_success_resets_counters true driverUp
           (snd (construct (initDown 0)))
           (snd (testConnection true driverUp (snd (construct (initDown 0))))) 0).
  - apply reach_new.
  - reflexivity.
  - vm_compute. reflexivity.
Defined.

(** ** Errors are logged and thrown again *)

(** C6. Whenever [testConnection] fails, the error it throws is the error
    its [try] block raised (for instance the driver's rejection of
    [getConnection]); before throwing it logs the failure, the error
    details, and last the message selected by the driver's error code:
    access denied, connection refused, missing database, and the generic
    message otherwise.  [query] logs the error, the statement and the
    parameters, changes nothing else, and throws the driver's error
    again. *)
Theorem C6_errors_logged_and_rethrown :
  (forall l io s e s',
     testConnection l io s = (Abrupt e, s') ->
     exists s1,
       testConnection_try l io s = (Abrupt e, s1) /\
       s' = set_log (log s1 ++
              [ mkLog Err ("Database connection test failed (Error #"
                           ++ show (connectionErrors s1 + 1) ++ "):") [AError e];
                mkLog Err "Error details:"
                      [ADetails (code e) (errno e) (sqlState e) (sqlMessage e)];
                humanReadable e ])
              (set_connectionErrors (connectionErrors s1 + 1)
                 (set_isConnected false s1))) /\
  (forall l io s h e,
     pool s = Some h -> getConn io = Abrupt e ->
     fst (testConnection l io s) = Abrupt e) /\
  (forall sql ps ex s e s',
     query sql ps ex s = (Abrupt e, s') ->
     (ex = Abrupt e \/
      (pool s = None /\
       e = TypeError "Cannot read properties of null (reading 'execute')")) /\
     s' = set_log (log s ++
            [ mkLog Err "Database query error:" [AError e];
              mkLog Err "Query:" [AText sql];
              mkLog Err "Parameters:" [AParams ps] ]) s) /\
  (forall sql ps s h e,
     pool s = Some h -> fst (query sql ps (Abrupt e) s) = Abrupt e).
Proof.
  repeat split.
  - intros l io s e s' H. destruct (@testConnection_throws l io s e s' H) as (s1 & Htry & Hc).
    exists s1. split; [assumption|]. rewrite testConnection_catch_eq in Hc. congruence.
  - intros l io s h e Hp Hg.
    assert (E : testConnection_try l io s = (Abrupt e, s)).
    { unfold testConnection_try, bind, gets, await. rewrite Hp, Hg. reflexivity. }
    unfold testConnection, tryCatch. rewrite E, testConnection_catch_eq.
    reflexivity.
  - unfold query, tryCatch, bind, gets, await, throw, ret in H. cbn in H.
    destruct (pool s); [destruct ex as [r|e0]|]; cbn in H; inversion H; auto.
  - unfold query, tryCatch, bind, gets, await, throw, ret, logger_error, logger,
      modify in H. cbn in H.
    destruct (pool s); [destruct ex as [r|e0]|]; cbn in H; inversion H;
      cbn; rewrite <- !app_assoc; reflexivity.
  - intros sql ps s h e Hp. unfold query, tryCatch, bind, gets, await. cbn.
    rewrite Hp. reflexivity.
Qed.

Lemma C6_errors_logged_and_rethrown_witness :
  fst (testConnection true driverDown (snd (construct (initDown 0)))) = Abrupt refused /\
  humanReadable refused =
    mkLog Err "Connection refused. Please check if MySQL server is running." [].
Proof.
  split; [|reflexivity].
  apply (proj1 (proj2 C6_errors_logged_and_rethrown) true driverDown
           (snd (construct (initDown 0))) 0%nat refused); vm_compute; reflexivity.
Defined.

(** a connection test leaves the counter of attempts alone or resets it *)
Lemma testConnection_attempts l io s :
  reconnectAttempts (snd (testConnection l io s)) = reconnectAttempts s \/
  reconnectAttempts (snd (testConnection l io s)) = 0.
Proof.
  revert s.
  change (Rel (fun s s' => reconnectAttempts s' = reconnectAttempts s \/
                           reconnectAttempts s' = 0) (testConnection l io)).
  assert (Hr : forall s, reconnectAttempts s = reconnectAttempts s \/
                         reconnectAttempts s = 0) by auto.
  assert (Ht : forall s t u,
    reconnectAttempts t = reconnectAttempts s \/ reconnectAttempts t = 0 ->
    reconnectAttempts u = reconnectAttempts t \/ reconnectAttempts u = 0 ->
    reconnectAttempts u = reconnectAttempts s \/ reconnectAttempts u = 0)
    by (intros; lia).
  unfold testConnection, testConnection_try, testConnection_catch, logByCode,
    logger_info, logger_error, logger.
  repeat (rel_step (fun s s' => reconnectAttempts s' = reconnectAttempts s \/
                                reconnectAttempts s' = 0) Hr Ht); cbn; auto.
Qed.

(** ** The health check *)


(** a tick whose test fails ends in the [catch] block of the callback,
    in a state that [testConnection] has already marked disconnected *)
Lemma healthCheckCallback_failed io rnd s e s1 :
  testConnection false io s = (Abrupt e, s1) ->
  isConnected s1 = false /\
  healthCheckCallback io rnd s =
    (Normal tt,
     set_log (log s1 ++ [mkLog Err "Database health check failed:" [AError e]]) s1).
Proof.
  intros H. destruct (@testConnection_throws false io s e s1 H) as (s0 & _ & Hc).
  rewrite testConnection_catch_eq in Hc.
  assert (Hd : isConnected s1 = false) by (inversion Hc; reflexivity).
  split; [assumption|].
  unfold healthCheckCallback, tryCatch, bind at 1. rewrite H.
  unfold healthCheck_catch, logger_error, logger, bind, gets, modify. cbn.
  rewrite Hd. reflexivity.
Qed.

(** The callback of the health check never registers a timeout: by the time
    its [catch] block tests [this.isConnected], the failed [testConnection]
    has set the flag to false. *)
Lemma healthCheckCallback_schedules_nothing io rnd s :
  timeouts (snd (healthCheckCallback io rnd s)) = timeouts s.
Proof.
  destruct (testConnection_sameHost false io s) as (_ & _ & _ & _ & Ht & _).
  destruct (testConnection false io s) as [[a|e] s1] eqn:E.
  - unfold healthCheckCallback, tryCatch, bind at 1. rewrite E. cbn in *. assumption.
  - destruct (@healthCheckCallback_failed io rnd s e s1 E) as (_ & ->). cbn in *.
    assumption.
Qed.





(** ** The cap on reconnection attempts *)

Section AtCap.
Variable s0 : State.

Lemma keepsCap_refl s : keepsCap s0 s s.
Proof. intro H. exact H. Qed.

Lemma keepsCap_trans s t u : keepsCap s0 s t -> keepsCap s0 t u -> keepsCap s0 s u.
Proof. unfold keepsCap. auto. Qed.

Lemma quiet_keepsCap s t : quiet s t -> keepsCap s0 s t.
Proof.
  intros (Hm & _ & Ha & Ht) (Cm & Ca & Ci). unfold atCap.
  rewrite Hm, Ha, Ht. auto.
Qed.

Lemma testConnection_keepsCap l io :
  testPasses io = false -> Rel (keepsCap s0) (testConnection l io).
Proof.
  intros Hp s (Cm & Ca & Ci).
  destruct (testConnection_sameHost l io s) as (_ & Hm & _ & _ & Ht & _).
  pose proof (@testConnection_sameAttempts l io Hp s) as Ha. unfold sameAttempts in Ha.
  unfold atCap. rewrite Hm, Ha, Ht. auto.
Qed.

Lemma scheduleReconnect_keepsCap rnd : Rel (keepsCap s0) (scheduleReconnect rnd).
Proof.
  intros s (Cm & Ca & Ci). rewrite scheduleReconnect_at_cap by lia.
  repeat split; assumption.
Qed.

Lemma expire_keepsCap s h :
  keepsCap s0 s (set_timeouts
    (filter (fun t => negb (Nat.eqb (tHandle t) h)) (timeouts s)) s).
Proof.
  intros (Cm & Ca & Ci). repeat split; try assumption. cbn.
  intros t Ht. apply Ci. now apply filter_In in Ht.
Qed.

Lemma execAll_keepsCap ops :
  Forall noTestPasses ops -> forall s, keepsCap s0 s (execAll ops s).
Proof.
  apply (@execAll_rel (keepsCap s0) (fun io => testPasses io = false)).
  - exact keepsCap_refl.
  - exact keepsCap_trans.
  - exact quiet_keepsCap.
  - exact testConnection_keepsCap.
  - exact scheduleReconnect_keepsCap.
  - exact expire_keepsCap.
Qed.
End AtCap.

(** C2 (as amended). At or above the cap [scheduleReconnect] registers no
    timeout and does not increment the counter; in every reachable state
    the counter is at most 10; and once the counter stands at 10, no
    reconnection is scheduled and the counter stays at 10 for as long as no
    connection test passes. *)
Theorem C2_reconnect_cap (s : State) (rnd : float) (ops : list Op) :
  (maxReconnectAttempts s <= reconnectAttempts s ->
     timeouts (snd (scheduleReconnect rnd s)) = timeouts s /\
     reconnectAttempts (snd (scheduleReconnect rnd s)) = reconnectAttempts s) /\
  (reachable s ->
     maxReconnectAttempts s = 10 /\ 0 <= reconnectAttempts s <= 10) /\
  (reachable s -> reconnectAttempts s = 10 -> Forall noTestPasses ops ->
     reconnectAttempts (execAll ops s) = 10 /\
     incl (timeouts (execAll ops s)) (timeouts s)).
Proof.
  repeat split.
  - rewrite scheduleReconnect_at_cap by assumption. reflexivity.
  - rewrite scheduleReconnect_at_cap by assumption. reflexivity.
  - now destruct (reachable_Inv H) as (Hm & _ & _).
  - now destruct (reachable_Inv H) as (_ & _ & Ha).
  - now destruct (reachable_Inv H) as (_ & _ & Ha).
  - destruct (reachable_Inv H) as (Hm & _ & _).
    apply (@execAll_keepsCap s ops H1 s). repeat split; try assumption.
    apply incl_refl.
  - destruct (reachable_Inv H) as (Hm & _ & _).
    apply (@execAll_keepsCap s ops H1 s). repeat split; try assumption.
    apply incl_refl.
Qed.

Lemma C2_reconnect_cap_witness :
  let s10 := execAll (tenRetries (initDown 0)) (snd (construct (initDown 0))) in
  let ops := [OpInterval 31 (initDown 0); OpInitialize (initDown 0); OpScheduleReconnect 0] in
  reconnectAttempts (execAll ops s10) = 10 /\
  incl (timeouts (execAll ops s10)) (timeouts s10).
Proof.
  cbv zeta.
  apply (proj2 (proj2
    (C2_reconnect_cap
       (execAll (tenRetries (initDown 0)) (snd (construct (initDown 0)))) 0
       [OpInterval 31 (initDown 0); OpInitialize (initDown 0); OpScheduleReconnect 0]))).
  - apply reachable_execAll, reach_new.
  - vm_compute. reflexivity.
  - repeat constructor.
Defined.

(** The third part of C2 as the specification words it fails.  The server
    is down: the first [initialize] and the ten retries fail, the counter
    stands at 10 and no timeout is pending.  Then the server answers a
    health check, which resets the counter, and the next failing
    [initialize] schedules a reconnection again.  With the server up, every
    [initialize] fails in [initializeSchema] after its connection test has
    reset the counter: after the first call and ten retries have failed,
    the next retry is pending and the counter stands at 1. *)
Lemma C2_cap_is_not_final :
  let s10 := execAll (tenRetries (initDown 0)) (snd (construct (initDown 0))) in
  let s := execAll [OpInterval 31 (initUp 0); OpInitialize (initDown 0)] s10 in
  let up := execAll (tenRetries (initUp 0)) (snd (construct (initUp 0))) in
  (reachable s10 /\ reconnectAttempts s10 = 10 /\ timeouts s10 = [] /\
   failures s10 = 11%nat /\ List.length (timeouts s) = 1%nat) /\
  (failures up = 11%nat /\ reconnectAttempts up = 1 /\ List.length (timeouts up) = 1%nat) /\
  ~ capIsFinal.
Proof.
  cbv zeta. split; [|split].
  - split; [apply reachable_execAll, reach_new|].
    repeat split; vm_compute; reflexivity.
  - repeat split; vm_compute; reflexivity.
  - intros H.
    set (s10 := execAll (tenRetries (initDown 0)) (snd (construct (initDown 0)))).
    set (ops := [OpInterval 31 (initUp 0); OpInitialize (initDown 0)]).
    assert (Hr : reachable s10) by apply reachable_execAll, reach_new.
    assert (Ha : reconnectAttempts s10 = 10) by (vm_compute; reflexivity).
    assert (E : timeouts s10 = []) by (vm_compute; reflexivity).
    assert (Hin : exists t, In t (timeouts (execAll ops s10)))
      by (vm_compute; eexists; left; reflexivity).
    destruct Hin as (t & Ht).
    pose proof (H s10 ops Hr Ha t Ht) as Hi. rewrite E in Hi. exact Hi.
Qed.

(* ------------------------------------------------------------------- *)
(** ** Further properties of the connection manager *)
(* ------------------------------------------------------------------- *)

Import DbMore.
Local Open Scope list_scope.

(** *** Every operation, for a relation that the methods respect *)

Section Methods.
Variable R : State -> State -> Prop.
Hypothesis R_refl : forall s, R s s.
Hypothesis R_trans : forall s t u, R s t -> R t u -> R s u.
Hypothesis R_log : forall s l, R s (set_log l s).
Hypothesis R_test : forall l io, Rel R (testConnection l io).
Hypothesis R_setup : Rel R setupConnectionMonitoring.
Hypothesis R_cleanup : forall pe, Rel R (cleanup pe).
Hypothesis R_lost : forall rnd,
  Rel R (bind (modify (set_isConnected false)) (fun _ => scheduleReconnect rnd)).
Hypothesis R_schedule : forall rnd, Rel R (scheduleReconnect rnd).
Hypothesis R_expire : forall s h,
  R s (set_timeouts (filter (fun t => negb (Nat.eqb (tHandle t) h)) (timeouts s)) s).
Hypothesis R_newPool : forall s,
  R s (set_pool (Some (nextHandle s)) (set_nextHandle (S (nextHandle s)) s)).

Ltac meth :=
  repeat (rel_step R R_refl R_trans);
  try (unfold logger; apply rel_modify; intro; apply R_log).

Lemma logger_meth l msg a : Rel R (logger l msg a).
Proof. unfold logger. apply rel_modify. intro. apply R_log. Qed.

Lemma query_meth sql ps ex : Rel R (query sql ps ex).
Proof. unfold query, logger_error. meth. Qed.

Lemma getConnection_meth c : Rel R (getConnection c).
Proof. unfold getConnection, logger_error. meth. Qed.

Lemma initializeSchema_meth io : Rel R (initializeSchema io).
Proof.
  unfold initializeSchema, resolve, logger_info, logger_error.
  meth. apply getConnection_meth.
Qed.

(** allocating the handle of the pool and storing it *)
Lemma newPool_meth A (k : Meth A) :
  Rel R k ->
  Rel R (bind fresh (fun h => bind (modify (set_pool (Some h))) (fun _ => k))).
Proof.
  intros Hk s. unfold bind, fresh, gets, modify, ret. cbn.
  eapply R_trans; [apply R_newPool | apply Hk].
Qed.

Lemma initialize_meth io : Rel R (initialize io).
Proof.
  unfold initialize, initialize_try, initialize_catch, logger_info, logger_error.
  apply (@rel_tryCatch R R_trans).
  - apply (@rel_bind R R_trans); [apply rel_await, R_refl | intro].
    apply (@rel_bind R R_trans); [apply logger_meth | intro].
    apply (@rel_bind R R_trans); [apply rel_await, R_refl | intro].
    apply newPool_meth.
    apply (@rel_bind R R_trans); [apply logger_meth | intro].
    apply (@rel_bind R R_trans); [apply R_setup | intro].
    apply (@rel_bind R R_trans); [apply R_test | intro].
    apply initializeSchema_meth.
  - intro e. apply (@rel_bind R R_trans); [apply logger_meth | intro].
    apply R_lost.
Qed.

Lemma healthCheckCallback_meth io rnd : Rel R (healthCheckCallback io rnd).
Proof.
  unfold healthCheckCallback, healthCheck_catch, logger_error.
  apply (@rel_tryCatch R R_trans).
  - apply (@rel_bind R R_trans); [apply R_test | intro]. apply rel_ret, R_refl.
  - intro e. apply (@rel_bind R R_trans); [apply logger_meth | intro].
    apply (@rel_bind R R_trans); [apply rel_gets, R_refl | intros []].
    + apply R_lost.
    + apply rel_ret, R_refl.
Qed.

Lemma runCallback_meth cb io : Rel R (runCallback cb io).
Proof.
  destruct cb; cbn [runCallback];
    [apply initialize_meth | apply healthCheckCallback_meth].
Qed.

Lemma runExit_meth pe : Rel R (runExit pe).
Proof. unfold runExit. meth. apply R_cleanup. Qed.

Lemma runListeners_meth ls pe : Rel R (runListeners ls pe).
Proof.
  induction ls as [|[ev []] ls IH]; cbn [runListeners]; meth;
    first [apply R_cleanup | apply runExit_meth | exact IH].
Qed.

(** every operation but a call of [scheduleReconnect] from outside *)
Lemma run_meth_inner op : notScheduleReconnect op -> Rel R (run op).
Proof.
  destruct op; cbn [run notScheduleReconnect]; intros Hop;
    unfold void, getPool, fireTimeout, tickInterval, emit.
  - apply initialize_meth.
  - apply R_setup.
  - meth. apply R_test.
  - contradiction.
  - apply R_cleanup.
  - meth.
  - meth. apply query_meth.
  - apply getConnection_meth.
  - apply initializeSchema_meth.
  - meth; [apply R_expire | apply runCallback_meth].
  - meth. apply runCallback_meth.
  - meth. apply runListeners_meth.
Qed.

Lemma run_meth op : Rel R (run op).
Proof.
  destruct op; try (apply run_meth_inner; exact I).
  cbn [run]. apply R_schedule.
Qed.
End Methods.

(** *** What [setupConnectionMonitoring] and [cleanup] leave behind *)

Lemma setupConnectionMonitoring_state s :
  let s' := snd (setupConnectionMonitoring s) in
  healthCheck s' = Some (nextHandle s) /\
  intervals s' =
    match healthCheck s with
    | Some old => filter (fun i => negb (Nat.eqb (iHandle i) old)) (intervals s)
    | None => intervals s
    end ++ [mkInterval (nextHandle s) 30000 CbHealthCheck] /\
  nextHandle s' = S (nextHandle s) /\
  listeners s' = listeners s ++ monitoringListeners /\
  pool s' = pool s /\ timeouts s' = timeouts s /\ endedPools s' = endedPools s /\
  isConnected s' = isConnected s /\ connectionErrors s' = connectionErrors s /\
  reconnectAttempts s' = reconnectAttempts s /\ log s' = log s.
Proof.
  unfold setupConnectionMonitoring, setInterval, clearInterval, process_on, fresh,
    bind, gets, modify, ret. cbn.
  destruct (healthCheck s) eqn:Eh; cbn; rewrite <- !app_assoc, ?Eh;
    repeat split; reflexivity.
Qed.

Lemma cleanup_state pe s :
  let s' := snd (cleanup pe s) in
  fst (cleanup pe s) = Normal tt /\
  healthCheck s' = None /\
  intervals s' =
    match healthCheck s with
    | Some old => filter (fun i => negb (Nat.eqb (iHandle i) old)) (intervals s)
    | None => intervals s
    end /\
  endedPools s' = endedPools s ++ match pool s with Some p => [p] | None => [] end /\
  pool s' = pool s /\ timeouts s' = timeouts s /\ listeners s' = listeners s /\
  nextHandle s' = nextHandle s /\
  isConnected s' = isConnected s /\ connectionErrors s' = connectionErrors s /\
  reconnectAttempts s' = reconnectAttempts s.
Proof.
  unfold cleanup, clearInterval, logger_info, logger_error, logger, bind, gets,
    modify, ret. cbn.
  destruct (healthCheck s) eqn:Eh; cbn; destruct (pool s) eqn:Ep; cbn;
    try destruct pe; cbn; rewrite ?app_nil_r, ?Ep, ?Eh; repeat split; reflexivity.
Qed.

(** *** The invariant of the host state *)

Lemma NoDup_map_filter A B (f : A -> B) (p : A -> bool) l :
  NoDup (map f l) -> NoDup (map f (filter p l)).
Proof.
  induction l as [|a l IH]; cbn; intros H; [constructor|].
  inversion H as [|? ? Hn Hd]; subst. destruct (p a); cbn; [|auto].
  constructor; [|auto]. intros Hin. apply Hn.
  apply in_map_iff in Hin. destruct Hin as (x & Hx & Hf).
  apply in_map_iff. exists x. split; [assumption|]. now apply filter_In in Hf.
Qed.

Lemma triples_snoc k :
  List.concat (repeat monitoringListeners k) ++ monitoringListeners
    = List.concat (repeat monitoringListeners (S k)).
Proof.
  induction k as [|k IH]; [reflexivity|].
  change (List.concat (repeat monitoringListeners (S k)))
    with (monitoringListeners ++ List.concat (repeat monitoringListeners k)).
  rewrite <- app_assoc, IH. reflexivity.
Qed.

Lemma keepsHostInv_refl s : keepsHostInv s s.
Proof. intro H. exact H. Qed.

Lemma keepsHostInv_trans s t u :
  keepsHostInv s t -> keepsHostInv t u -> keepsHostInv s u.
Proof. unfold keepsHostInv. auto. Qed.

Lemma sameHost_keepsHostInv s t : sameHost s t -> keepsHostInv s t.
Proof.
  intros (Hp & _ & _ & Hh & Ht & Hi & Hl & Hn & _) (H1 & (H2 & H3 & H4 & H5) & H6).
  unfold hostInv, oneHealthCheck, handlesFresh, listenersInTriples.
  rewrite Hp, Hh, Ht, Hi, Hl, Hn.
  exact (conj H1 (conj (conj H2 (conj H3 (conj H4 H5))) H6)).
Qed.

Lemma setup_keepsHostInv : Rel keepsHostInv setupConnectionMonitoring.
Proof.
  intros s (H1 & (H2 & H3 & H4 & H5) & (k & H6)).
  destruct (setupConnectionMonitoring_state s)
    as (Eh & Ei & En & El & Ep & Et & _).
  cbv zeta in *. unfold hostInv, oneHealthCheck, handlesFresh, listenersInTriples.
  rewrite Eh, Ei, En, El, Ep, Et.
  assert (Hkept : match healthCheck s with
                  | Some old =>
                      filter (fun i => negb (Nat.eqb (iHandle i) old)) (intervals s)
                  | None => intervals s
                  end = []).
  { unfold oneHealthCheck in H1. rewrite H1. destruct (healthCheck s); [|reflexivity].
    cbn. rewrite Nat.eqb_refl. reflexivity. }
  rewrite Hkept. cbn [app]. repeat split.
  - destruct (H2 t H) as (Hlt & _). lia.
  - now destruct (H2 t H).
  - assumption.
  - intros i [<-|[]]. cbn. lia.
  - intros p Hp. specialize (H5 p Hp). lia.
  - exists (S k). rewrite H6. apply triples_snoc.
Qed.

Lemma cleanup_keepsHostInv pe : Rel keepsHostInv (cleanup pe).
Proof.
  intros s (H1 & (H2 & H3 & H4 & H5) & H6).
  destruct (cleanup_state pe s)
    as (_ & Eh & Ei & _ & Ep & Et & El & En & _).
  cbv zeta in *. unfold hostInv, oneHealthCheck, handlesFresh, listenersInTriples.
  rewrite Eh, Ei, Ep, Et, El, En.
  assert (Hkept : match healthCheck s with
                  | Some old =>
                      filter (fun i => negb (Nat.eqb (iHandle i) old)) (intervals s)
                  | None => intervals s
                  end = []).
  { unfold oneHealthCheck in H1. rewrite H1. destruct (healthCheck s); [|reflexivity].
    cbn. rewrite Nat.eqb_refl. reflexivity. }
  rewrite Hkept. repeat split; auto; try (now apply H2).
  intros i [].
Qed.

Lemma scheduleReconnect_keepsHostInv rnd : Rel keepsHostInv (scheduleReconnect rnd).
Proof.
  intros s (H1 & (H2 & H3 & H4 & H5) & H6).
  destruct (Z.lt_ge_cases (reconnectAttempts s) (maxReconnectAttempts s)).
  - rewrite scheduleReconnect_below by assumption. cbn [snd].
    unfold hostInv, oneHealthCheck, handlesFresh, listenersInTriples. cbn.
    repeat split; auto.
    + apply in_app_or in H0. destruct H0 as [Hin|[<-|[]]]; cbn; [|lia].
      destruct (H2 t Hin). lia.
    + apply in_app_or in H0. destruct H0 as [Hin|[<-|[]]]; cbn; [|reflexivity].
      now destruct (H2 t Hin).
    + rewrite map_app. cbn. apply NoDup_app; [assumption|repeat constructor; auto|].
      intros h Hh [E|[]]. apply in_map_iff in Hh. destruct Hh as (t & Ht & Hin).
      destruct (H2 t Hin). lia.
    + intros i Hi. specialize (H4 i Hi). lia.
    + intros p Hp. specialize (H5 p Hp). lia.
  - rewrite scheduleReconnect_at_cap by assumption. cbn [snd].
    unfold hostInv, oneHealthCheck, handlesFresh, listenersInTriples. cbn.
    repeat split; auto; now apply H2.
Qed.

Lemma lost_keepsHostInv rnd :
  Rel keepsHostInv
    (bind (modify (set_isConnected false)) (fun _ => scheduleReconnect rnd)).
Proof.
  apply (@rel_bind keepsHostInv keepsHostInv_trans).
  - apply rel_modify. intros s H. exact H.
  - intro. apply scheduleReconnect_keepsHostInv.
Qed.

Lemma expire_keepsHostInv s h :
  keepsHostInv s (set_timeouts
    (filter (fun t => negb (Nat.eqb (tHandle t) h)) (timeouts s)) s).
Proof.
  intros (H1 & (H2 & H3 & H4 & H5) & H6).
  unfold hostInv, oneHealthCheck, handlesFresh, listenersInTriples. cbn.
  repeat split; auto.
  - apply filter_In in H. now apply H2.
  - apply filter_In in H. now apply H2.
  - now apply NoDup_map_filter.
Qed.

Lemma newPool_keepsHostInv s :
  keepsHostInv s (set_pool (Some (nextHandle s)) (set_nextHandle (S (nextHandle s)) s)).
Proof.
  intros (H1 & (H2 & H3 & H4 & H5) & H6).
  unfold hostInv, oneHealthCheck, handlesFresh, listenersInTriples. cbn.
  repeat split; auto.
  - destruct (H2 t H). lia.
  - now apply H2.
  - intros i Hi. specialize (H4 i Hi). lia.
  - intros p [= <-]. lia.
Qed.

Lemma run_keepsHostInv op : Rel keepsHostInv (run op).
Proof.
  apply (@run_meth keepsHostInv).
  - exact keepsHostInv_refl.
  - exact keepsHostInv_trans.
  - intros s l H. exact H.
  - intros l io s. apply sameHost_keepsHostInv, testConnection_sameHost.
  - exact setup_keepsHostInv.
  - exact cleanup_keepsHostInv.
  - exact lost_keepsHostInv.
  - exact scheduleReconnect_keepsHostInv.
  - exact expire_keepsHostInv.
  - exact newPool_keepsHostInv.
Qed.

Lemma hostInv_new : hostInv fieldsOfNew.
Proof.
  unfold hostInv, oneHealthCheck, handlesFresh, listenersInTriples. cbn.
  split; [reflexivity|]. split; [|exists 0%nat; reflexivity].
  repeat split; try contradiction; try discriminate. constructor.
Qed.

Lemma reachable_hostInv s : reachable s -> hostInv s.
Proof.
  induction 1 as [io | s op _ IH].
  - unfold construct. change (initialize io) with (run (OpInitialize io)).
    apply run_keepsHostInv, hostInv_new.
  - unfold exec. apply run_keepsHostInv, IH.
Qed.

(** *** The health check, the handles and the listeners *)

(** X1. In every reachable state at most one interval is active: the
    health check of 30000 ms that [healthCheck] refers to, and none when
    [healthCheck] is null. *)
Theorem X1_one_health_check (s : State) :
  reachable s ->
  intervals s = match healthCheck s with
                | Some h => [mkInterval h 30000 CbHealthCheck]
                | None => []
                end.
Proof. intros H. exact (proj1 (reachable_hostInv H)). Qed.

Lemma X1_one_health_check_witness :
  intervals (execAll (tenRetries (initDown 0)) (snd (construct (initDown 0))))
    = [mkInterval 31 30000 CbHealthCheck].
Proof.
  rewrite (@X1_one_health_check
             (execAll (tenRetries (initDown 0)) (snd (construct (initDown 0))))).
  - vm_compute. reflexivity.
  - apply reachable_execAll, reach_new.
Defined.

Lemma find_unique A (f : A -> nat) l t :
  NoDup (map f l) -> In t l ->
  find (fun x => Nat.eqb (f x) (f t)) l = Some t.
Proof.
  induction l as [|a l IH]; cbn; intros Hn Hin; [contradiction|].
  inversion Hn as [|? ? Hna Hnl]; subst.
  destruct Hin as [->|Hin]; [now rewrite Nat.eqb_refl|].
  destruct (Nat.eqb_spec (f a) (f t)) as [E|_]; [|auto].
  exfalso. apply Hna. rewrite E. now apply in_map.
Qed.

Lemma fireTimeout_pending s t io :
  hostInv s -> In t (timeouts s) ->
  fireTimeout (tHandle t) io s =
    initialize io
      (set_timeouts
         (filter (fun u => negb (Nat.eqb (tHandle u) (tHandle t))) (timeouts s)) s) /\
  (forall u,
     In u (filter (fun u => negb (Nat.eqb (tHandle u) (tHandle t))) (timeouts s)) <->
     In u (timeouts s) /\ u <> t).
Proof.
  intros (_ & (H2 & H3 & _) & _) Hin. split.
  - unfold fireTimeout, bind, gets, modify. cbn.
    rewrite (find_unique tHandle _ _ H3 Hin). cbn.
    destruct (H2 t Hin) as (_ & ->). reflexivity.
  - intros u. rewrite filter_In, negb_true_iff, Nat.eqb_neq. split.
    + intros (Hu & Hne). split; [assumption|]. intros ->. now apply Hne.
    + intros (Hu & Hne). split; [assumption|]. intros E. apply Hne.
      pose proof (find_unique tHandle _ _ H3 Hin) as F1.
      pose proof (find_unique tHandle _ _ H3 Hu) as F2.
      rewrite E in F2. congruence.
Qed.

(** X2. A pending timeout expires exactly once: in a reachable state,
    firing the handle of a pending timeout removes that timeout and no
    other from the table, and then calls [initialize]. *)
Theorem X2_timeout_fires_once (s : State) (t : Timeout) (io : InitIO) :
  reachable s -> In t (timeouts s) ->
  exists rest,
    fireTimeout (tHandle t) io s = initialize io (set_timeouts rest s) /\
    (forall u, In u rest <-> In u (timeouts s) /\ u <> t).
Proof.
  intros Hr Hin. eexists. apply fireTimeout_pending; [|assumption].
  now apply reachable_hostInv.
Qed.

Lemma X2_timeout_fires_once_witness :
  exists rest,
    fireTimeout 2 (initDown 0) (snd (construct (initDown 0)))
      = initialize (initDown 0) (set_timeouts rest (snd (construct (initDown 0)))) /\
    (forall u, In u rest <->
       In u (timeouts (snd (construct (initDown 0)))) /\
       u <> mkTimeout 2 (backoffDelay 5000 1 0) CbInitialize).
Proof.
  apply (@X2_timeout_fires_once (snd (construct (initDown 0)))
           (mkTimeout 2 (backoffDelay 5000 1 0) CbInitialize) (initDown 0)).
  - apply reach_new.
  - vm_compute. left. reflexivity.
Defined.

Lemma listenersGrow_refl s : listenersGrow s s.
Proof. exists 0%nat. cbn. now rewrite app_nil_r. Qed.

Lemma listenersGrow_trans s t u :
  listenersGrow s t -> listenersGrow t u -> listenersGrow s u.
Proof.
  intros (k1 & H1) (k2 & H2). exists (k1 + k2)%nat.
  rewrite H2, H1, repeat_app, concat_app, app_assoc. reflexivity.
Qed.

Lemma sameListeners_grow s t : listeners t = listeners s -> listenersGrow s t.
Proof. intros H. exists 0%nat. cbn. now rewrite app_nil_r. Qed.

Lemma run_listenersGrow op : Rel listenersGrow (run op).
Proof.
  apply (@run_meth listenersGrow).
  - exact listenersGrow_refl.
  - exact listenersGrow_trans.
  - intros s l. now apply sameListeners_grow.
  - intros l io s. apply sameListeners_grow.
    now destruct (testConnection_sameHost l io s) as (_ & _ & _ & _ & _ & _ & H & _).
  - intros s. exists 1%nat.
    change (List.concat (repeat monitoringListeners 1)) with monitoringListeners.
    now destruct (setupConnectionMonitoring_state s) as (_ & _ & _ & H & _).
  - intros pe s. apply sameListeners_grow.
    now destruct (cleanup_state pe s) as (_ & _ & _ & _ & _ & _ & H & _).
  - intros rnd. apply (@rel_bind listenersGrow listenersGrow_trans).
    + apply rel_modify. intros s. now apply sameListeners_grow.
    + intros _ s. apply sameListeners_grow.
      destruct (Z.lt_ge_cases (reconnectAttempts s) (maxReconnectAttempts s)).
      * now rewrite scheduleReconnect_below.
      * now rewrite scheduleReconnect_at_cap.
  - intros rnd s. apply sameListeners_grow.
    destruct (Z.lt_ge_cases (reconnectAttempts s) (maxReconnectAttempts s)).
    + now rewrite scheduleReconnect_below.
    + now rewrite scheduleReconnect_at_cap.
  - intros s h. now apply sameListeners_grow.
  - intros s. now apply sameListeners_grow.
Qed.

(** X3. No operation ever removes a process listener: every operation
    leaves the registered listeners in place and appends the three
    listeners of [setupConnectionMonitoring] some number of times; in a
    reachable state the listeners are such triples only. *)
Theorem X3_listeners_only_grow (s : State) (ops : list Op) :
  (exists k, listeners (execAll ops s)
             = listeners s ++ List.concat (repeat monitoringListeners k)) /\
  (reachable s ->
   exists k, listeners s = List.concat (repeat monitoringListeners k)).
Proof.
  split.
  - revert s. induction ops as [|op ops IH]; intros s; cbn.
    + apply listenersGrow_refl.
    + eapply listenersGrow_trans; [apply (run_listenersGrow op s) | apply IH].
  - intros H. exact (proj2 (proj2 (reachable_hostInv H))).
Qed.

Lemma X3_listeners_only_grow_witness :
  exists k, listeners (execAll (tenRetries (initDown 0)) (snd (construct (initDown 0))))
            = List.concat (repeat monitoringListeners k).
Proof.
  apply (proj2 (X3_listeners_only_grow
           (execAll (tenRetries (initDown 0)) (snd (construct (initDown 0)))) [])).
  apply reachable_execAll, reach_new.
Defined.

(** *** Methods that write the log only *)

Lemma exceptLog_refl s : exceptLog s s.
Proof. unfold exceptLog. now destruct s. Qed.

Lemma exceptLog_trans s t u : exceptLog s t -> exceptLog t u -> exceptLog s u.
Proof.
  unfold exceptLog. intros H1 H2. rewrite H2 at 1. rewrite H1 at 1. reflexivity.
Qed.

Ltac onlylog :=
  repeat (rel_step exceptLog exceptLog_refl exceptLog_trans);
  try (unfold exceptLog; reflexivity).

Lemma logger_exceptLog l msg a : Rel exceptLog (logger l msg a).
Proof. unfold logger. onlylog. Qed.

Lemma query_exceptLog sql ps ex : Rel exceptLog (query sql ps ex).
Proof. unfold query, logger_error. onlylog; apply logger_exceptLog. Qed.

Lemma getConnection_exceptLog c : Rel exceptLog (getConnection c).
Proof. unfold getConnection, logger_error. onlylog; apply logger_exceptLog. Qed.

Lemma initializeSchema_exceptLog io : Rel exceptLog (initializeSchema io).
Proof.
  unfold initializeSchema, resolve, logger_info, logger_error.
  onlylog; first [apply logger_exceptLog | apply getConnection_exceptLog].
Qed.

(** *** Following [initialize] to its end *)

Lemma bind_await_normal A B (a : A) (k : A -> Meth B) s :
  bind (await (Normal a)) k s = k a s.
Proof. reflexivity. Qed.

Lemma bind_logger B l msg a (k : unit -> Meth B) s :
  bind (logger l msg a) k s = k tt (set_log (log s ++ [mkLog l msg a]) s).
Proof. reflexivity. Qed.

Lemma setupConnectionMonitoring_normal s :
  fst (setupConnectionMonitoring s) = Normal tt.
Proof.
  unfold setupConnectionMonitoring, setInterval, clearInterval, process_on, fresh,
    bind, gets, modify, ret. cbn. destruct (healthCheck s); reflexivity.
Qed.

(** the [try] block of an [initialize] that creates a pool: the pool and
    the monitoring are set up, then the test and the schema run *)
Lemma initialize_try_created io c s :
  iConfig io = Normal c -> iCreatePool io = Normal tt ->
  initialize_try io s =
    bind (testConnection true (iTest io)) (fun _ => initializeSchema (iSchema io))
         (monitored c s).
Proof.
  intros Hc Hp. unfold initialize_try, logger_info. rewrite Hc, Hp.
  rewrite bind_await_normal, bind_logger, bind_await_normal.
  unfold monitored, poolCreated.
  pose proof (setupConnectionMonitoring_normal
    (set_log
       (log (set_pool (Some (nextHandle s))
               (set_nextHandle (S (nextHandle s))
                  (set_log (log s ++
                     [mkLog Info "Initializing database connection with config:"
                        [AConfig (host c) (user c) (name c) (connectionLimit c)]])
                     s)))
        ++ [mkLog Info "Database connection pool initialized" []])
       (set_pool (Some (nextHandle s))
          (set_nextHandle (S (nextHandle s))
             (set_log (log s ++
                [mkLog Info "Initializing database connection with config:"
                   [AConfig (host c) (user c) (name c) (connectionLimit c)]])
                s))))) as Hn.
  unfold bind at 1. unfold fresh at 1. unfold bind at 1. unfold gets at 1.
  cbv beta iota. unfold bind at 1. unfold modify at 1. cbv beta iota.
  unfold ret at 1. cbv beta iota.
  unfold bind at 1. unfold modify at 1. cbv beta iota.
  rewrite bind_logger.
  unfold bind at 1.
  match goal with
  | |- match setupConnectionMonitoring ?st with _ => _ end = _ =>
      change st with
        (set_log
           (log (set_pool (Some (nextHandle s))
                   (set_nextHandle (S (nextHandle s))
                      (set_log (log s ++
                         [mkLog Info "Initializing database connection with config:"
                            [AConfig (host c) (user c) (name c) (connectionLimit c)]])
                         s)))
            ++ [mkLog Info "Database connection pool initialized" []])
           (set_pool (Some (nextHandle s))
              (set_nextHandle (S (nextHandle s))
                 (set_log (log s ++
                    [mkLog Info "Initializing database connection with config:"
                       [AConfig (host c) (user c) (name c) (connectionLimit c)]])
                    s))))
  end.
  destruct (setupConnectionMonitoring _) as [[u|e] s2]; cbn [fst snd] in *;
    [reflexivity | discriminate].
Qed.

(** every [initialize] ends in its [catch] block *)
Lemma initialize_unfolds io s :
  exists e s1,
    initialize_try io s = (Abrupt e, s1) /\
    initialize io s = scheduleReconnect (iRandom io) (caught e s1).
Proof.
  destruct (initialize_try_throws io s) as (e & s1 & E). exists e, s1.
  split; [assumption|]. unfold initialize, tryCatch. rewrite E. reflexivity.
Qed.

Lemma initializeSchema_sameHost io : Rel sameHost (initializeSchema io).
Proof.
  unfold initializeSchema, getConnection, resolve, logger_info, logger_error.
  host; apply logger_sameHost.
Qed.

(** what [scheduleReconnect] leaves alone *)
Lemma scheduleReconnect_monitor rnd s :
  let s' := snd (scheduleReconnect rnd s) in
  pool s' = pool s /\ healthCheck s' = healthCheck s /\
  intervals s' = intervals s /\ listeners s' = listeners s /\
  endedPools s' = endedPools s /\ isConnected s' = isConnected s /\
  connectionErrors s' = connectionErrors s.
Proof.
  cbv zeta. destruct (Z.lt_ge_cases (reconnectAttempts s) (maxReconnectAttempts s)).
  - rewrite scheduleReconnect_below by assumption. repeat split.
  - rewrite scheduleReconnect_at_cap by assumption. repeat split.
Qed.

(** what an [initialize] that creates a pool leaves behind *)
Lemma initialize_created io c s :
  iConfig io = Normal c -> iCreatePool io = Normal tt ->
  let s' := snd (initialize io s) in
  pool s' = Some (nextHandle s) /\
  healthCheck s' = Some (S (nextHandle s)) /\
  intervals s' =
    match healthCheck s with
    | Some old => filter (fun i => negb (Nat.eqb (iHandle i) old)) (intervals s)
    | None => intervals s
    end ++ [mkInterval (S (nextHandle s)) 30000 CbHealthCheck] /\
  listeners s' = listeners s ++ monitoringListeners /\
  endedPools s' = endedPools s.
Proof.
  intros Hc Hp. cbv zeta.
  destruct (initialize_unfolds io s) as (e & s1 & Etry & ->).
  rewrite (@initialize_try_created io c s Hc Hp) in Etry.
  assert (Hh : sameHost (monitored c s) s1).
  { replace s1 with
      (snd (bind (testConnection true (iTest io))
                 (fun _ => initializeSchema (iSchema io)) (monitored c s)))
      by (now rewrite Etry).
    apply (@rel_bind sameHost sameHost_trans);
      [apply testConnection_sameHost | intro; apply initializeSchema_sameHost]. }
  destruct Hh as (Ep & _ & _ & Eh & _ & Ei & El & _ & Ee).
  destruct (scheduleReconnect_monitor (iRandom io) (caught e s1))
    as (Fp & Fh & Fi & Fl & Fe & _).
  cbv zeta in *. rewrite Fp, Fh, Fi, Fl, Fe. unfold caught.
  cbn [pool healthCheck intervals listeners endedPools set_isConnected set_log].
  rewrite Ep, Eh, Ei, El, Ee. unfold monitored.
  destruct (setupConnectionMonitoring_state (poolCreated c s))
    as (Sh & Si & _ & Sl & Sp & _ & Se & _).
  cbv zeta in *. rewrite Sh, Si, Sl, Sp, Se. unfold poolCreated. cbn.
  repeat split; reflexivity.
Qed.

(** *** Pools and shutdown *)

Lemma initialize_sameEnded io : Rel sameEnded (initialize io).
Proof.
  apply (@initialize_meth sameEnded); unfold sameEnded;
    try solve [intros; cbn; congruence].
  - intros l d s.
    now destruct (testConnection_sameHost l d s) as (_ & _ & _ & _ & _ & _ & _ & _ & H).
  - intros s.
    now destruct (setupConnectionMonitoring_state s) as (_ & _ & _ & _ & _ & _ & H & _).
  - intros rnd s. unfold bind, modify.
    cbn [fst snd]. destruct (Z.lt_ge_cases (reconnectAttempts (set_isConnected false s))
                               (maxReconnectAttempts (set_isConnected false s))).
    + now rewrite scheduleReconnect_below.
    + now rewrite scheduleReconnect_at_cap.
Qed.

(** X4. [initialize] never ends a pool.  When it creates a pool in a
    reachable state that already has one, [this.pool] becomes a new pool,
    different from the old one, which is left open; the call registers
    three more process listeners and the only active interval is a new
    health check. *)
Theorem X4_initialize_replaces_pool
    (io : InitIO) (c : DbConfig) (s : State) (p : nat) :
  reachable s -> pool s = Some p ->
  iConfig io = Normal c -> iCreatePool io = Normal tt ->
  let s' := snd (initialize io s) in
  endedPools s' = endedPools s /\
  pool s' = Some (nextHandle s) /\ nextHandle s <> p /\
  listeners s' = listeners s ++ monitoringListeners /\
  healthCheck s' = Some (S (nextHandle s)) /\
  intervals s' = [mkInterval (S (nextHandle s)) 30000 CbHealthCheck].
Proof.
  intros Hr Hp Hc Hcp. cbv zeta.
  destruct (@initialize_created io c s Hc Hcp) as (E1 & E2 & E3 & E4 & E5).
  cbv zeta in *.
  destruct (reachable_hostInv Hr) as (_ & (_ & _ & _ & H5) & _).
  assert (Hi : hostInv (snd (initialize io s))).
  { apply reachable_hostInv.
    change (snd (initialize io s)) with (exec (OpInitialize io) s).
    now apply reach_step. }
  destruct Hi as (Hone & _). unfold oneHealthCheck in Hone. rewrite E2 in Hone.
  repeat split; try assumption.
  specialize (H5 p Hp). lia.
Qed.

Lemma X4_initialize_replaces_pool_witness :
  let s := snd (construct (initDown 0)) in
  let s' := snd (initialize (initDown 0) s) in
  endedPools s' = [] /\ pool s = Some 0%nat /\ pool s' = Some 3%nat /\
  List.length (listeners s') = 6%nat.
Proof.
  destruct (@X4_initialize_replaces_pool (initDown 0) sampleConfig
              (snd (construct (initDown 0))) 0%nat)
    as (He & Hp & _ & Hl & _).
  - apply reach_new.
  - vm_compute. reflexivity.
  - reflexivity.
  - reflexivity.
  - cbv zeta in *. rewrite He, Hp, Hl. vm_compute. repeat split; reflexivity.
Defined.

(** X5. In a reachable state [cleanup] clears the health check and asks
    the pool, if there is one, to end; it keeps the reference to the pool
    and does not cancel a pending reconnection.  When such a timeout
    expires afterwards and a pool can be created, the health check is
    installed again on a new pool. *)
Theorem X5_cleanup_keeps_pending_reconnection
    (s : State) (pe : completion unit) (t : Timeout) (io : InitIO) (c : DbConfig) :
  reachable s -> In t (timeouts s) ->
  iConfig io = Normal c -> iCreatePool io = Normal tt ->
  let s1 := snd (cleanup pe s) in
  let s2 := exec (OpTimeout (tHandle t) io) s1 in
  (intervals s1 = [] /\ healthCheck s1 = None /\ pool s1 = pool s /\
   timeouts s1 = timeouts s /\
   endedPools s1 = endedPools s ++ match pool s with Some p => [p] | None => [] end) /\
  (pool s2 = Some (nextHandle s) /\
   healthCheck s2 = Some (S (nextHandle s)) /\
   intervals s2 = [mkInterval (S (nextHandle s)) 30000 CbHealthCheck]).
Proof.
  intros Hr Hin Hc Hcp. cbv zeta.
  destruct (cleanup_state pe s)
    as (_ & Eh & Ei & Ee & Ep & Et & El & En & _). cbv zeta in *.
  assert (Hr1 : reachable (snd (cleanup pe s)))
    by (change (snd (cleanup pe s)) with (exec (OpCleanup pe) s); now apply reach_step).
  pose proof (reachable_hostInv Hr1) as Hi1.
  pose proof Hi1 as (Hone & _). unfold oneHealthCheck in Hone. rewrite Eh in Hone.
  split; [repeat split; assumption|].
  assert (Hin1 : In t (timeouts (snd (cleanup pe s)))) by (now rewrite Et).
  destruct (@fireTimeout_pending _ t io Hi1 Hin1) as (Ef & _).
  unfold exec. cbn [run]. rewrite Ef.
  destruct (@initialize_created io c
    (set_timeouts
       (filter (fun u => negb (Nat.eqb (tHandle u) (tHandle t)))
               (timeouts (snd (cleanup pe s)))) (snd (cleanup pe s))) Hc Hcp)
    as (E1 & E2 & E3 & _).
  cbv zeta in *.
  cbn [nextHandle healthCheck intervals set_timeouts] in E1, E2, E3.
  rewrite En in E1, E2, E3. rewrite Eh, Hone in E3. cbn [app] in E3.
  repeat split; assumption.
Qed.

Lemma X5_cleanup_keeps_pending_reconnection_witness :
  let s := snd (construct (initDown 0)) in
  let s1 := snd (cleanup (Normal tt) s) in
  let s2 := exec (OpTimeout 2 (initDown 0)) s1 in
  (intervals s1 = [] /\ List.length (timeouts s1) = 1%nat /\ endedPools s1 = [0%nat]) /\
  intervals s2 = [mkInterval 4 30000 CbHealthCheck].
Proof.
  destruct (@X5_cleanup_keeps_pending_reconnection
              (snd (construct (initDown 0))) (Normal tt)
              (mkTimeout 2 (backoffDelay 5000 1 0) CbInitialize)
              (initDown 0) sampleConfig)
    as ((Hi & _ & _ & Ht & He) & (_ & _ & Hi2)).
  - apply reach_new.
  - vm_compute. left. reflexivity.
  - reflexivity.
  - reflexivity.
  - cbv zeta in *. split; [|exact Hi2].
    rewrite Hi, Ht, He. vm_compute. repeat split; reflexivity.
Defined.

Lemma filter_triples ev l k :
  filter (fun x : string * Listener => String.eqb (fst x) ev) monitoringListeners = [l] ->
  filter (fun x : string * Listener => String.eqb (fst x) ev)
         (List.concat (repeat monitoringListeners k)) = repeat l k.
Proof.
  intros H. induction k as [|k IH]; [reflexivity|].
  change (List.concat (repeat monitoringListeners (S k)))
    with (monitoringListeners ++ List.concat (repeat monitoringListeners k)).
  rewrite filter_app, H, IH. reflexivity.
Qed.

(** running [cleanup] once per ['exit'] listener *)
Lemma cleanups_state pe (ls : list (string * Listener)) : forall s,
  let r := forOf ls (fun _ => cleanup pe) s in
  fst r = Normal tt /\
  pool (snd r) = pool s /\ listeners (snd r) = listeners s /\
  endedPools (snd r) =
    endedPools s ++
    List.concat (repeat (match pool s with Some p => [p] | None => [] end)
                        (List.length ls)).
Proof.
  induction ls as [|x ls IH]; intros s; cbn [forOf List.length repeat List.concat].
  - cbn. rewrite app_nil_r. auto.
  - cbv zeta. unfold bind.
    destruct (cleanup_state pe s) as (Ec & _ & _ & Ee & Ep & _ & El & _).
    cbv zeta in *. destruct (cleanup pe s) as [c s1]. cbn in *. subst c.
    specialize (IH s1). cbv zeta in IH. destruct IH as (I1 & I2 & I3 & I4).
    rewrite I1, I2, I3, I4, Ep, El, Ee, <- app_assoc. auto.
Qed.

(** X6. On SIGINT (and on SIGTERM) the first listener runs [cleanup] and
    then [process.exit], whose ['exit'] listeners run [cleanup] again: with
    [k + 1] calls of [setupConnectionMonitoring] behind it, the object asks
    its pool to end [k + 2] times, at least twice. *)
Theorem X6_signal_ends_pool_repeatedly
    (s : State) (pe : completion unit) (p k : nat) (signal : string) :
  signal = "SIGINT" \/ signal = "SIGTERM" ->
  listeners s = List.concat (repeat monitoringListeners (S k)) ->
  pool s = Some p ->
  endedPools (snd (emit signal pe s)) = endedPools s ++ repeat p (S (S k)).
Proof.
  intros Hsig Hl Hp. unfold emit, bind, gets. cbn [fst snd]. rewrite Hl.
  rewrite (@filter_triples signal (signal, LCleanupExit))
    by (destruct Hsig as [-> | ->]; reflexivity).
  cbn [repeat runListeners]. unfold bind.
  destruct (cleanup_state pe s) as (Ec & _ & _ & Ee & Ep & _ & El & _).
  cbv zeta in *. destruct (cleanup pe s) as [c s1]. cbn [fst snd] in *. subst c.
  unfold runExit, bind, gets. cbn [fst snd]. rewrite El, Hl.
  rewrite (@filter_triples "exit" ("exit", LCleanup)) by reflexivity.
  destruct (cleanups_state pe (repeat ("exit", LCleanup) (S k)) s1)
    as (_ & _ & _ & E). cbv zeta in E.
  rewrite E, Ee, Ep, Hp, repeat_length, <- app_assoc. f_equal.
  clear. induction k as [|k IH]; [reflexivity|].
  cbn in *. now rewrite IH.
Qed.

Lemma X6_signal_ends_pool_repeatedly_witness :
  endedPools (snd (emit "SIGINT" (Normal tt) (snd (construct (initDown 0)))))
    = [0; 0]%nat.
Proof.
  apply (@X6_signal_ends_pool_repeatedly
           (snd (construct (initDown 0))) (Normal tt) 0 0 "SIGINT").
  - left. reflexivity.
  - reflexivity.
  - reflexivity.
Defined.

(** *** Methods that only log *)

(** X7. [query], [getConnection] and [initializeSchema] change nothing
    but the log, whether they return or throw: a failed query does not
    mark the connection lost, count an error or schedule a reconnection.
    [getPool] changes nothing and returns [this.pool]. *)
Theorem X7_queries_leave_connection_state
    (s : State) (sql : string) (ps : list string) (ex : completion Rows)
    (c : completion unit) (io : SchemaIO) :
  snd (query sql ps ex s) = set_log (log (snd (query sql ps ex s))) s /\
  snd (getConnection c s) = set_log (log (snd (getConnection c s))) s /\
  snd (initializeSchema io s) = set_log (log (snd (initializeSchema io s))) s /\
  getPool s = (Normal (pool s), s).
Proof.
  repeat split.
  - apply query_exceptLog.
  - apply getConnection_exceptLog.
  - apply initializeSchema_exceptLog.
Qed.

(** *** Paths of the connection test *)

Ltac open_test :=
  unfold testConnection, testConnection_try, testConnection_catch, logByCode;
  cbn [getConn tConfig schemata createDatabase useDatabase selectOne releaseConn].

(** X8. When the test query answers, but its first row does not carry the
    number 1, [testConnection] neither throws nor returns [true]: it
    returns [undefined] and leaves the state as it was, so a connection
    marked lost stays marked lost. *)
Theorem X8_test_returns_undefined
    (l : bool) (io : Driver) (s : State) (p n : nat) (c : DbConfig)
    (r : option Z) (rest : list (option Z)) :
  pool s = Some p ->
  getConn io = Normal tt -> tConfig io = Normal c ->
  schemata io = Normal (S n) ->
  selectOne io = Normal (r :: rest) -> r <> Some 1 ->
  releaseConn io = Normal tt ->
  testConnection l io s = (Normal None, s).
Proof.
  intros Hp Hg Hc Hs Hsel Hr Hrel.
  enough (H : wp (testConnection l io) (fun c s' => c = Normal None /\ s' = s) s).
  { unfold wp in H. destruct (testConnection l io s) as [c0 s0].
    cbn in H. destruct H. now subst. }
  destruct io as [cfg gc sc cd ud so rl]. cbn in Hg, Hc, Hs, Hsel, Hrel. subst.
  open_test. repeat wp_step; try (cbn in *; discriminate); try congruence; auto.
Qed.

Lemma X8_test_returns_undefined_witness :
  let io := mkDriver (Normal sampleConfig) (Normal tt) (Normal 1%nat) (Normal tt)
                     (Normal tt) (Normal [None]) (Normal tt) in
  testConnection true io (snd (construct (initDown 0)))
    = (Normal None, snd (construct (initDown 0))).
Proof.
  cbv zeta.
  apply (@X8_test_returns_undefined true _ _ 0%nat 0%nat sampleConfig None []);
    try reflexivity.
  discriminate.
Defined.



(** X10. When [connection.release()] throws, [testConnection] throws that
    error, whatever the statements before it did (it replaces the error of
    a failed statement, and turns a test that passed into a failure), and
    the connection is marked lost. *)
Theorem X10_release_error_wins
    (l : bool) (io : Driver) (s : State) (p : nat) (e : Error) :
  pool s = Some p -> getConn io = Normal tt -> releaseConn io = Abrupt e ->
  fst (testConnection l io s) = Abrupt e /\
  isConnected (snd (testConnection l io s)) = false.
Proof.
  intros Hp Hg Hrel.
  change (wp (testConnection l io)
            (fun c s' => c = Abrupt e /\ isConnected s' = false) s).
  destruct io as [cfg gc sc cd ud so rl]. cbn in Hg, Hrel. subst.
  open_test. repeat wp_step; try congruence; cbn; auto.
Qed.

Lemma X10_release_error_wins_witness :
  let io := mkDriver (Normal sampleConfig) (Normal tt) (Normal 1%nat) (Normal tt)
                     (Normal tt) (Normal [Some 1]) (Abrupt refused) in
  fst (testConnection true io (snd (construct (initDown 0)))) = Abrupt refused /\
  isConnected (snd (testConnection true io (snd (construct (initDown 0))))) = false.
Proof.
  cbv zeta.
  apply (@X10_release_error_wins true _ _ 0%nat refused); reflexivity.
Defined.

(** X11. Before a pool exists nothing reaches the driver:
    [testConnection] throws [Error('Database pool not initialized')],
    counts it as a connection error and logs the generic message;
    [query], [getConnection] and [initializeSchema] throw a [TypeError];
    the answers the driver would have given play no part. *)
Theorem X11_no_pool
    (s : State) (l : bool) (io : Driver) (sql : string) (ps : list string)
    (ex : completion Rows) (c : completion unit) (sio : SchemaIO) :
  pool s = None ->
  (fst (testConnection l io s) = Abrupt (newError "Database pool not initialized") /\
   isConnected (snd (testConnection l io s)) = false /\
   connectionErrors (snd (testConnection l io s)) = connectionErrors s + 1 /\
   last (log (snd (testConnection l io s))) (mkLog Info "" [])
     = mkLog Err "Unknown database error:" [AText "Database pool not initialized"]) /\
  fst (query sql ps ex s)
    = Abrupt (TypeError "Cannot read properties of null (reading 'execute')") /\
  fst (getConnection c s)
    = Abrupt (TypeError "Cannot read properties of null (reading 'getConnection')") /\
  fst (initializeSchema sio s)
    = Abrupt (TypeError "Cannot read properties of null (reading 'getConnection')").
Proof.
  intros Hp. split; [|split; [|split]].
  - assert (E : testConnection_try l io s
                = (Abrupt (newError "Database pool not initialized"), s)).
    { unfold testConnection_try, bind, gets. cbn. now rewrite Hp. }
    unfold testConnection, tryCatch. rewrite E, testConnection_catch_eq.
    cbn [fst snd isConnected connectionErrors log set_log set_connectionErrors
         set_isConnected].
    repeat split.
    change (log s ++ [?a; ?b; ?c]) with (log s ++ [a; b] ++ [c]).
    rewrite app_assoc, last_last. reflexivity.
  - unfold query, tryCatch, bind, gets. cbn. now rewrite Hp.
  - unfold getConnection, tryCatch, bind, gets. cbn. now rewrite Hp.
  - unfold initializeSchema, getConnection, tryCatch, bind, gets. cbn. now rewrite Hp.
Qed.

Lemma X11_no_pool_witness :
  fst (testConnection true driverUp fieldsOfNew)
    = Abrupt (newError "Database pool not initialized") /\
  fst (query "SELECT 1" [] (Normal []) fieldsOfNew)
    = Abrupt (TypeError "Cannot read properties of null (reading 'execute')").
Proof.
  destruct (@X11_no_pool fieldsOfNew true driverUp "SELECT 1" [] (Normal [])
              (Normal tt) schemaIOUp eq_refl) as ((H1 & _) & H2 & _).
  split; assumption.
Defined.

(** *** An object left to its own timers *)

Lemma drives_reachable s : drives s -> reachable s.
Proof.
  induction 1 as [io | s op _ IH _]; [apply reach_new | now apply reach_step].
Qed.

Lemma tryFrame_refl s : tryFrame s s.
Proof. unfold tryFrame. auto. Qed.

Lemma tryFrame_trans s t u : tryFrame s t -> tryFrame t u -> tryFrame s u.
Proof. unfold tryFrame. intuition congruence. Qed.

Lemma sameHost_tryFrame s t :
  sameHost s t ->
  reconnectAttempts t = reconnectAttempts s \/ reconnectAttempts t = 0 ->
  tryFrame s t.
Proof. intros (_ & Hm & Hd & _ & Ht & _) Ha. unfold tryFrame. auto. Qed.

(** the [try] block of [initialize] registers no timeout and leaves the
    counter alone or resets it *)
Lemma initialize_try_tryFrame io : Rel tryFrame (initialize_try io).
Proof.
  unfold initialize_try, logger_info, fresh.
  repeat (rel_step tryFrame tryFrame_refl tryFrame_trans);
    try (unfold tryFrame; cbn; auto; fail).
  - intros s. unfold logger, modify. cbn. unfold tryFrame. cbn. auto.
  - intros s. unfold logger, modify. cbn. unfold tryFrame. cbn. auto.
  - intros s. destruct (setupConnectionMonitoring_quiet s) as (Hm & Hd & Ha & Ht).
    unfold tryFrame. auto.
  - intros s. apply sameHost_tryFrame;
      [apply testConnection_sameHost | apply testConnection_attempts].
  - intros s. apply sameHost_tryFrame; [apply initializeSchema_sameHost|].
    left. now destruct (initializeSchema_quiet (iSchema io) s) as (_ & _ & Ha & _).
Qed.

(** the pending timeouts after [initialize]: those before, and at most
    one more *)
Lemma initialize_timeouts io s :
  timeouts (snd (initialize io s)) = timeouts s \/
  exists t, timeouts (snd (initialize io s)) = timeouts s ++ [t].
Proof.
  destruct (initialize_unfolds io s) as (e & s1 & Etry & ->).
  pose proof (initialize_try_tryFrame io s) as (Ht & _). rewrite Etry in Ht.
  cbn [snd] in Ht.
  destruct (Z.lt_ge_cases (reconnectAttempts (caught e s1))
                          (maxReconnectAttempts (caught e s1))).
  - rewrite scheduleReconnect_below by assumption. right. eexists.
    cbn [snd timeouts set_timeouts]. unfold caught.
    cbn [timeouts set_isConnected set_log]. rewrite Ht. reflexivity.
  - rewrite scheduleReconnect_at_cap by assumption. left.
    unfold caught. cbn. exact Ht.
Qed.

(** one operation of an object left to itself never lengthens the table
    of timeouts *)
Lemma selfDriven_timeouts op s :
  hostInv s -> selfDriven op ->
  (List.length (timeouts (exec op s)) <= List.length (timeouts s))%nat.
Proof.
  intros Hi Hop. unfold exec.
  assert (Hsame : forall A (m : Meth A), Rel quiet m ->
            (List.length (timeouts (snd (m s))) <= List.length (timeouts s))%nat).
  { intros A m Hm. destruct (Hm s) as (_ & _ & _ & ->). reflexivity. }
  destruct op; cbn [run selfDriven] in *; try contradiction.
  - apply Hsame, setupConnectionMonitoring_quiet.
  - unfold void, bind.
    destruct (testConnection_sameHost logSuccess io s) as (_ & _ & _ & _ & Ht & _).
    destruct (testConnection logSuccess io s) as [[a|e] s1]; cbn in *; now rewrite Ht.
  - apply Hsame, cleanup_quiet.
  - cbn. reflexivity.
  - unfold void, bind. pose proof (query_quiet sql params execute s) as (_ & _ & _ & Ht).
    destruct (query sql params execute s) as [[a|e] s1]; cbn in *; now rewrite Ht.
  - apply Hsame, getConnection_quiet.
  - apply Hsame, initializeSchema_quiet.
  - unfold fireTimeout, bind, gets, modify. cbn [fst snd].
    destruct (find (fun t => Nat.eqb (tHandle t) h) (timeouts s)) as [t|] eqn:Ef;
      [|reflexivity].
    apply find_some in Ef. destruct Ef as (Hin & Hh). apply Nat.eqb_eq in Hh.
    destruct Hi as (_ & (H2 & _) & _). destruct (H2 t Hin) as (_ & Hcb).
    rewrite Hcb. cbn [runCallback].
    set (s1 := set_timeouts
                 (filter (fun t0 => negb (Nat.eqb (tHandle t0) h)) (timeouts s)) s).
    assert (Hlt : (List.length (timeouts s1) < List.length (timeouts s))%nat).
    { subst s1. cbn. clear -Hin Hh. induction (timeouts s) as [|a l IH]; [contradiction|].
      cbn. destruct Hin as [->|Hin].
      - rewrite Hh, Nat.eqb_refl. cbn.
        pose proof (filter_length_le (fun t0 => negb (Nat.eqb (tHandle t0) h)) l). lia.
      - specialize (IH Hin). destruct (negb (Nat.eqb (tHandle a) h)); cbn; lia. }
    clearbody s1.
    destruct (initialize_timeouts io s1) as [E|(t' & E)]; rewrite E;
      [|rewrite length_app; cbn [List.length]]; lia.
  - unfold tickInterval, bind, gets. cbn [fst snd].
    destruct (find (fun i => Nat.eqb (iHandle i) h) (intervals s)) as [i|] eqn:Ef;
      [|reflexivity].
    apply find_some in Ef. destruct Ef as (Hin & _).
    destruct Hi as (Hone & _). unfold oneHealthCheck in Hone. rewrite Hone in Hin.
    destruct (healthCheck s); [|contradiction]. destruct Hin as [<-|[]].
    cbn [runCallback iCallback]. now rewrite healthCheckCallback_schedules_nothing.
  - apply Hsame, emit_quiet.
Qed.

Lemma drives_one_pending s : drives s -> (List.length (timeouts s) <= 1)%nat.
Proof.
  induction 1 as [io | s op Hd IH Hop].
  - unfold construct.
    destruct (initialize_timeouts io fieldsOfNew) as [E|(t & E)]; rewrite E;
      cbn; lia.
  - pose proof (@selfDriven_timeouts op s (reachable_hostInv (drives_reachable Hd)) Hop).
    lia.
Qed.

Lemma none_pending_stays ops : forall s,
  reachable s -> Forall selfDriven ops ->
  timeouts s = [] -> timeouts (execAll ops s) = [].
Proof.
  induction ops as [|op ops IH]; intros s Hr Hops Ht; cbn; [assumption|].
  inversion Hops as [|? ? Hop Hrest]; subst.
  apply IH; [now apply reach_step | assumption |].
  pose proof (@selfDriven_timeouts op s (reachable_hostInv Hr) Hop) as Hl.
  rewrite Ht in Hl. cbn in Hl.
  destruct (timeouts (exec op s)); [reflexivity | cbn in Hl; lia].
Qed.

(** X12. On an object on which nobody calls [initialize] or
    [scheduleReconnect] from outside, at most one reconnection is pending
    at any time, and once none is pending (as after giving up) none is
    ever scheduled again: health checks, connection tests, queries,
    [cleanup] and process events never schedule one, even when the server
    answers again. *)
Theorem X12_one_pending_reconnection (s : State) (ops : list Op) :
  drives s -> Forall selfDriven ops ->
  (List.length (timeouts s) <= 1)%nat /\
  (timeouts s = [] -> timeouts (execAll ops s) = []).
Proof.
  intros Hd Hops. split.
  - now apply drives_one_pending.
  - apply none_pending_stays; [now apply drives_reachable | assumption].
Qed.

Lemma X12_one_pending_reconnection_witness :
  let s10 := execAll (tenRetries (initDown 0)) (snd (construct (initDown 0))) in
  timeouts (execAll [OpInterval 31 (initUp 0); OpTestConnection true driverUp;
                     OpInterval 31 (initDown 0)] s10) = [].
Proof.
  cbv zeta.
  destruct (@X12_one_pending_reconnection
    (execAll (tenRetries (initDown 0)) (snd (construct (initDown 0))))
    [OpInterval 31 (initUp 0); OpTestConnection true driverUp;
     OpInterval 31 (initDown 0)]) as (_ & H).
  - unfold tenRetries. cbn [map execAll fold_left].
    repeat (apply drives_step; [|exact I]). apply drives_new.
  - repeat constructor.
  - apply H. vm_compute. reflexivity.
Defined.

(** *** The flags of a connection marked established *)

Lemma testConnection_try_idle l io s :
  wp (testConnection_try l io)
     (fun c s' => (exists a, c = Normal a) -> connectedIdle s -> connectedIdle s') s.
Proof.
  destruct io as [cfg gc sc cd ud so rl].
  unfold testConnection_try. cbn [getConn tConfig schemata createDatabase
    useDatabase selectOne releaseConn].
  repeat wp_step; intros (a' & Ha) Hi; try discriminate;
    unfold connectedIdle in *; cbn in *; auto.
Qed.

Lemma testConnection_keepsIdle l io : Rel keepsIdle (testConnection l io).
Proof.
  intros s Hi. pose proof (@testConnection_try_idle l io s) as Hw. unfold wp in Hw.
  destruct (testConnection l io s) as [[a|e] s'] eqn:E.
  - unfold testConnection, tryCatch in E.
    destruct (testConnection_try l io s) as [[a0|e0] s0].
    + inversion E; subst. cbn in *. eauto.
    + rewrite testConnection_catch_eq in E. discriminate.
  - destruct (@testConnection_throws l io s e s' E) as (s1 & _ & Hc).
    rewrite testConnection_catch_eq in Hc. inversion Hc; subst.
    cbn. intros Hx. discriminate.
Qed.

Lemma run_keepsIdle op : notScheduleReconnect op -> Rel keepsIdle (run op).
Proof.
  apply (@run_meth_inner keepsIdle); unfold keepsIdle, connectedIdle;
    try solve [intros; cbn in *; auto].
  - intros l io. apply testConnection_keepsIdle.
  - intros s.
    destruct (setupConnectionMonitoring_state s)
      as (_ & _ & _ & _ & _ & _ & _ & E1 & E2 & E3 & _).
    cbv zeta in *. now rewrite E1, E2, E3.
  - intros pe s.
    destruct (cleanup_state pe s) as (_ & _ & _ & _ & _ & _ & _ & _ & E1 & E2 & E3).
    cbv zeta in *. now rewrite E1, E2, E3.
  - intros rnd s _. unfold bind, modify. cbn [fst snd].
    destruct (scheduleReconnect_monitor rnd (set_isConnected false s))
      as (_ & _ & _ & _ & _ & E & _).
    cbv zeta in E. rewrite E. cbn. discriminate.
Qed.

Lemma drives_idle s : drives s -> connectedIdle s.
Proof.
  induction 1 as [io | s op _ IH Hop].
  - unfold construct. change (initialize io) with (run (OpInitialize io)).
    apply run_keepsIdle; [exact I|]. intros Hx. discriminate.
  - unfold exec. apply run_keepsIdle; [|exact IH]. now destruct op.
Qed.

(** X13. On an object on which nobody calls [initialize] or
    [scheduleReconnect] from outside: while the connection is marked
    established, no connection error and no reconnection attempt is
    counted. *)
Theorem X13_connected_means_clean (s : State) :
  drives s -> isConnected s = true ->
  connectionErrors s = 0 /\ reconnectAttempts s = 0.
Proof. intros Hd. exact (drives_idle Hd). Qed.

Lemma X13_connected_means_clean_witness :
  let s := exec (OpInterval 1 (initUp 0)) (snd (construct (initDown 0))) in
  connectionErrors s = 0 /\ reconnectAttempts s = 0.
Proof.
  cbv zeta.
  apply (@X13_connected_means_clean
           (exec (OpInterval 1 (initUp 0)) (snd (construct (initDown 0))))).
  - apply drives_step; [apply drives_new | exact I].
  - vm_compute. reflexivity.
Defined.

(** X14. Whatever the outside world answers, the constructor does not
    throw and leaves the object marked disconnected, with the counter of
    attempts at 1 and exactly one reconnection pending, its delay that of
    attempt 1: a new [Database] is never connected when its constructor
    returns, not even when the server answered the connection test. *)
Theorem X14_constructor (io : InitIO) :
  fst (construct io) = Normal tt /\
  isConnected (snd (construct io)) = false /\
  reconnectAttempts (snd (construct io)) = 1 /\
  exists h,
    timeouts (snd (construct io))
      = [mkTimeout h (backoffDelay 5000 1 (iRandom io)) CbInitialize].
Proof.
  unfold construct.
  destruct (initialize_unfolds io fieldsOfNew) as (e & s1 & Etry & ->).
  pose proof (initialize_try_tryFrame io fieldsOfNew) as (Ht & Hm & Hd & Ha).
  rewrite Etry in Ht, Hm, Hd, Ha. cbn in Ht, Hm, Hd, Ha.
  assert (Ha0 : reconnectAttempts s1 = 0) by (destruct Ha; assumption).
  rewrite scheduleReconnect_below by (unfold caught; cbn; lia).
  unfold caught. cbn. rewrite Ht, Hd, Ha0. cbn. repeat split. eauto.
Qed.

(** *** The retry loop while the server answers *)

(** a test that succeeds leaves the connection marked established, with
    both counters at 0 *)
Lemma testConnection_succeeds l io s p :
  pool s = Some p -> testSucceeds io -> connectedIdle s ->
  wp (testConnection l io)
     (fun c s' => c = Normal (Some true) /\ isConnected s' = true /\
                  connectionErrors s' = 0 /\ reconnectAttempts s' = 0) s.
Proof.
  intros Hp (Hpass & Hrel) Hi. unfold connectedIdle in Hi.
  destruct io as [cfg gc sc cd ud so rl].
  unfold testPasses in Hpass. cbn in Hpass, Hrel. subst rl.
  open_test. repeat wp_step; try (cbn in *; discriminate); cbn in *;
    try (exfalso;
         repeat match goal with
                | H : match ?x with _ => _ end = true |- _ => destruct x
                end; discriminate);
    repeat split; try reflexivity;
    try match goal with
        | H : negb (isConnected s) = false |- _ =>
            apply negb_false_iff in H; now destruct (Hi H)
        end.
Qed.

(** X15. On an object left to its own timers, when a retry runs while the
    server answers (the pool is created and the connection test succeeds),
    [initialize] still fails, in [initializeSchema]; the retry leaves the
    object marked disconnected on a new pool, with no error counted, the
    counter of attempts at 1, and the next retry as the only pending
    timeout, after the delay of attempt 1.  The loop neither stops nor
    backs off. *)
Theorem X15_retry_loop_when_server_answers
    (s : State) (t : Timeout) (io : InitIO) (c : DbConfig) :
  drives s -> In t (timeouts s) ->
  iConfig io = Normal c -> iCreatePool io = Normal tt -> testSucceeds (iTest io) ->
  let s' := exec (OpTimeout (tHandle t) io) s in
  isConnected s' = false /\ connectionErrors s' = 0 /\ reconnectAttempts s' = 1 /\
  pool s' = Some (nextHandle s) /\
  timeouts s' = [mkTimeout (S (S (nextHandle s)))
                   (backoffDelay 5000 1 (iRandom io)) CbInitialize].
Proof.
  intros Hd Hin Hc Hcp Hok. cbv zeta.
  pose proof (drives_reachable Hd) as Hr.
  pose proof (reachable_hostInv Hr) as Hi.
  destruct (reachable_Inv Hr) as (Hmax & Hdel & _).
  pose proof (drives_idle Hd) as Hidle.
  (* the pending timeout is the only one *)
  assert (Hone : timeouts s = [t]).
  { pose proof (drives_one_pending Hd) as Hl. destruct (timeouts s) as [|a [|b l]];
      [contradiction | | cbn in Hl; lia].
    destruct Hin as [->|[]]. reflexivity. }
  destruct (@fireTimeout_pending s t io Hi Hin) as (Ef & _).
  unfold exec. cbn [run]. rewrite Ef. rewrite Hone. cbn [filter].
  rewrite Nat.eqb_refl. cbn [negb].
  set (s0 := set_timeouts [] s).
  destruct (initialize_unfolds io s0) as (e & s1 & Etry & ->).
  rewrite (@initialize_try_created io c s0 Hc Hcp) in Etry.
  destruct (setupConnectionMonitoring_state (poolCreated c s0))
    as (_ & _ & Sn & _ & Sp & St & _ & Sc & Se & Sa & Sl).
  cbv zeta in *. fold (monitored c s0) in Sn, Sp, St, Sc, Se, Sa, Sl.
  assert (Hidle' : connectedIdle (monitored c s0)).
  { unfold connectedIdle. rewrite Sc, Se, Sa. exact Hidle. }
  pose proof (@testConnection_succeeds true (iTest io) (monitored c s0)
                (nextHandle s) Sp Hok Hidle') as Hw.
  unfold wp in Hw.
  pose proof (testConnection_sameHost true (iTest io) (monitored c s0)) as Hh.
  unfold bind in Etry.
  destruct (testConnection true (iTest io) (monitored c s0)) as [ct s2].
  cbn [fst snd] in Hw, Hh. destruct Hw as (-> & W1 & W2 & W3).
  pose proof (initializeSchema_exceptLog (iSchema io) s2) as Hx.
  rewrite Etry in Hx. cbn [snd] in Hx. unfold exceptLog in Hx.
  destruct Hh as (Hp2 & Hm2 & Hd2 & _ & Ht2 & _ & _ & Hn2 & _).
  assert (F : reconnectAttempts s1 = 0 /\ connectionErrors s1 = 0 /\
              timeouts s1 = [] /\ nextHandle s1 = S (S (nextHandle s)) /\
              maxReconnectAttempts s1 = 10 /\ reconnectDelay s1 = 5000%float /\
              pool s1 = Some (nextHandle s)).
  { rewrite Hx. cbn. rewrite W2, W3, Ht2, Hn2, Hm2, Hd2, Hp2, St, Sn, Sp.
    destruct (setupConnectionMonitoring_quiet (poolCreated c s0)) as (Qm & Qd & _).
    fold (monitored c s0) in Qm, Qd. rewrite Qm, Qd. cbn.
    repeat split; assumption. }
  destruct F as (F1 & F2 & F3 & F4 & F5 & F6 & F7).
  rewrite scheduleReconnect_below by (unfold caught; cbn; lia).
  unfold caught. cbn. rewrite F1, F2, F3, F4, F6, F7. repeat split.
Qed.

Lemma X15_retry_loop_when_server_answers_witness :
  let s := snd (construct (initUp 0)) in
  let s' := exec (OpTimeout 2 (initUp 0.5)) s in
  reconnectAttempts s' = 1 /\
  timeouts s' = [mkTimeout 5 (backoffDelay 5000 1 0.5) CbInitialize].
Proof.
  destruct (@X15_retry_loop_when_server_answers
              (snd (construct (initUp 0)))
              (mkTimeout 2 (backoffDelay 5000 1 0) CbInitialize)
              (initUp 0.5) sampleConfig)
    as (_ & _ & Ha & _ & Ht).
  - apply drives_new.
  - vm_compute. left. reflexivity.
  - reflexivity.
  - reflexivity.
  - split; reflexivity.
  - cbv zeta in *. split; [exact Ha | exact Ht].
Defined.

(** *** The delays of the back-off *)

(** *** What the event loop calls never throws *)

Lemma neverThrows_bind A (m : Meth A) (k : A -> Meth unit) :
  (forall a, neverThrows (k a)) ->
  (forall s, exists a, fst (m s) = Normal a) ->
  neverThrows (bind m k).
Proof.
  intros Hk Hm s. unfold bind. destruct (Hm s) as (a & Ha).
  destruct (m s) as [c s1]. cbn in Ha. subst c. apply Hk.
Qed.

Lemma initialize_neverThrows io : neverThrows (initialize io).
Proof.
  intros s. destruct (initialize_unfolds io s) as (e & s1 & _ & ->).
  apply scheduleReconnect_result.
Qed.

Lemma healthCheckCallback_neverThrows io rnd : neverThrows (healthCheckCallback io rnd).
Proof.
  intros s. unfold healthCheckCallback, tryCatch, bind at 1.
  destruct (testConnection false io s) as [[a|e] s1]; [reflexivity|].
  unfold healthCheck_catch, logger_error, logger, bind, gets, modify. cbn [fst snd].
  destruct (isConnected _); [apply scheduleReconnect_result | reflexivity].
Qed.

Lemma cleanup_neverThrows pe : neverThrows (cleanup pe).
Proof. intros s. now destruct (cleanup_state pe s) as (H & _). Qed.

Lemma runListeners_neverThrows ls pe : neverThrows (runListeners ls pe).
Proof.
  induction ls as [|[ev []] ls IH]; cbn [runListeners].
  - intros s. reflexivity.
  - apply neverThrows_bind; [intros _; exact IH|].
    intros s. exists tt. apply cleanup_neverThrows.
  - apply neverThrows_bind.
    + intros _ s. unfold runExit, bind, gets. cbn [fst snd].
      now destruct (cleanups_state pe
        (filter (fun l => String.eqb (fst l) "exit") (listeners s)) s) as (H & _).
    + intros s. exists tt. apply cleanup_neverThrows.
Qed.

(** X17. Nothing that the event loop or the process calls on the object
    ever throws: the callback of a reconnection timeout ([initialize]),
    the callback of the health check, and the listeners of ['exit'],
    ['SIGINT'] and ['SIGTERM'] complete normally for every answer of the
    outside world, so none of them leaves a rejected promise behind. *)
Theorem X17_callbacks_never_throw
    (s : State) (h : nat) (io : InitIO) (ev : string) (pe : completion unit) :
  fst (fireTimeout h io s) = Normal tt /\
  fst (tickInterval h io s) = Normal tt /\
  fst (emit ev pe s) = Normal tt.
Proof.
  assert (Hcb : forall cb st, fst (runCallback cb io st) = Normal tt).
  { intros [] st; cbn [runCallback];
      [apply initialize_neverThrows | apply healthCheckCallback_neverThrows]. }
  repeat split.
  - unfold fireTimeout, bind, gets, modify. cbn [fst snd].
    destruct (find _ _); [apply Hcb | reflexivity].
  - unfold tickInterval, bind, gets. cbn [fst snd].
    destruct (find _ _); [apply Hcb | reflexivity].
  - unfold emit, bind, gets. cbn [fst snd]. apply runListeners_neverThrows.
Qed.

(** *** The statements of the schema file *)

Lemma occurs_split sep s p : In p (split sep s) -> occurs sep p = false.
Proof.
  revert p. induction s as [|c s IH]; cbn [split]; intros p Hin.
  - destruct Hin as [<-|[]]. reflexivity.
  - destruct (N.eqb c sep) eqn:E.
    + destruct Hin as [<-|Hin]; [reflexivity | now apply IH].
    + destruct (split sep s) as [|h t] eqn:Es.
      * destruct Hin as [<-|[]]. cbn. now rewrite E.
      * destruct Hin as [<-|Hin].
        -- cbn. rewrite E. cbn. apply IH. now left.
        -- apply IH. now right.
Qed.

Lemma occurs_trimStart c s : occurs c s = false -> occurs c (trimStart s) = false.
Proof.
  induction s as [|d s IH]; cbn [occurs trimStart]; [auto|]. intros H.
  apply orb_false_iff in H. destruct H as (H1 & H2).
  destruct (isSpace d); [auto|]. cbn [occurs]. now rewrite H1, H2.
Qed.

Lemma occurs_trimEnd c s : occurs c s = false -> occurs c (trimEnd s) = false.
Proof.
  induction s as [|d s IH]; cbn [occurs trimEnd]; [auto|]. intros H.
  apply orb_false_iff in H. destruct H as (H1 & H2). specialize (IH H2).
  destruct (trimEnd s) as [|e r].
  - destruct (isSpace d); cbn [occurs]; [reflexivity | now rewrite H1].
  - cbn [occurs] in *. now rewrite H1, IH.
Qed.

Lemma trimStart_first s c : firstChar (trimStart s) = Some c -> isSpace c = false.
Proof.
  induction s as [|d s IH]; cbn [trimStart firstChar]; [discriminate|].
  destruct (isSpace d) eqn:E; [assumption|]. cbn [firstChar]. now intros [= <-].
Qed.

Lemma trimEnd_first s : forall c,
  firstChar s = Some c -> isSpace c = false -> firstChar (trimEnd s) = Some c.
Proof.
  destruct s as [|d s]; cbn [firstChar trimEnd]; [discriminate|]. intros c [= <-] Hc.
  destruct (trimEnd s); [now rewrite Hc | reflexivity].
Qed.

Lemma trimEnd_last s c : lastChar (trimEnd s) = Some c -> isSpace c = false.
Proof.
  induction s as [|d s IH]; cbn [trimEnd lastChar]; [discriminate|].
  destruct (trimEnd s) as [|e r] eqn:E.
  - destruct (isSpace d) eqn:Ed; cbn [lastChar]; [discriminate | now intros [= <-]].
  - cbn [lastChar]. exact IH.
Qed.

Lemma split_nonempty sep s : split sep s <> [].
Proof.
  destruct s as [|c s]; cbn [split]; [discriminate|].
  destruct (N.eqb c sep); [discriminate|].
  destruct (split sep s); discriminate.
Qed.

Lemma join_split sep s : join sep (split sep s) = s.
Proof.
  induction s as [|c s IH]; [reflexivity|]. cbn [split].
  pose proof (split_nonempty sep s) as Hne.
  destruct (N.eqb_spec c sep) as [->|Hc].
  - destruct (split sep s) as [|h t]; [contradiction|].
    cbn [join]. cbn [join] in IH. cbn [app]. now rewrite IH.
  - destruct (split sep s) as [|h t]; [contradiction|].
    destruct t as [|h2 t]; cbn [join] in *; cbn [app]; now rewrite IH.
Qed.

Lemma lastChar_some (s : jsString) : s <> [] -> exists c, lastChar s = Some c.
Proof.
  induction s as [|c s IH]; [congruence|]. intros _.
  destruct s as [|d s]; [now exists c|].
  destruct IH as (x & Hx); [discriminate|]. exists x. exact Hx.
Qed.

(** X18. Whatever the schema file contains, every statement
    [initializeSchema] derives from it is non-empty, has no white space at
    either end (none of the code units that [trim] removes, the byte order
    mark and the no-break space among them) and contains no semicolon (so
    a semicolon inside a string literal or a comment of the file cuts a
    statement in two); joining the pieces of [split] with semicolons gives
    the file back. *)
Theorem X18_statements_of_the_schema_file (schema st : jsString) :
  join semicolon (split semicolon schema) = schema /\
  (In st (statementsOf schema) ->
   st <> [] /\
   occurs semicolon st = false /\
   (exists c, firstChar st = Some c /\ isSpace c = false) /\
   (exists c, lastChar st = Some c /\ isSpace c = false)).
Proof.
  split; [apply join_split|]. intros Hin.
  unfold statementsOf in Hin. apply filter_In in Hin. destruct Hin as (Hin & Hlen).
  apply in_map_iff in Hin. destruct Hin as (p & <- & Hp).
  assert (Hne : trim p <> []).
  { intros E. rewrite E in Hlen. discriminate. }
  split; [exact Hne|]. split.
  - unfold trim.
    now apply occurs_trimEnd, occurs_trimStart, occurs_split with (s := schema).
  - split.
    + unfold trim in *. destruct (trimStart p) as [|c r] eqn:Et.
      * exfalso. apply Hne. reflexivity.
      * exists c. assert (Hc : isSpace c = false)
          by (apply (@trimStart_first p); now rewrite Et).
        split; [|exact Hc]. now apply trimEnd_first.
    + destruct (lastChar_some Hne) as (c & Hc). exists c. split; [exact Hc|].
      unfold trim in Hc. now apply trimEnd_last in Hc.
Qed.

Lemma X18_statements_of_the_schema_file_witness :
  let schema :=
    (0xFEFF%N :: ofString " CREATE TABLE a (x INT) ;; CREATE TABLE b (y INT);")
      ++ [0x00A0%N; 0x000A%N] in
  statementsOf schema
    = [ofString "CREATE TABLE a (x INT)"; ofString "CREATE TABLE b (y INT)"] /\
  occurs semicolon (ofString "CREATE TABLE a (x INT)") = false.
Proof.
  cbv zeta. split; [reflexivity|].
  apply (proj2 (X18_statements_of_the_schema_file
           ((0xFEFF%N :: ofString " CREATE TABLE a (x INT) ;; CREATE TABLE b (y INT);")
              ++ [0x00A0%N; 0x000A%N])
           (ofString "CREATE TABLE a (x INT)"))).
  vm_compute. left. reflexivity.
Defined.

(** the statements of [initializeSchema] are those of [statementsOf] *)
Lemma initializeSchema_statements io s :
  initializeSchema io s =
    bind (getConnection (sGetConn io))
      (fun _ =>
         tryFinally
           (tryCatch
              (bind (logger_info "Initializing database schema..." [])
                 (fun _ => bind (resolve "URL")
                 (fun _ => bind (resolve "fs")
                 (fun _ => bind (await (sReadFile io))
                 (fun schema =>
                    bind (forOf (statementsOf schema)
                            (fun sql => await (sExecute io (sql ++ [semicolon]))))
                      (fun _ =>
                         logger_info "Database schema initialized successfully" []))))))
              (fun error =>
                 bind (logger_error "Error initializing database schema:"
                                    [AError error])
                      (fun _ => throw error)))
           (await (sRelease io))) s.
Proof. reflexivity. Qed.

End DatabaseFacts.

(* ===================================================================== *)
(** * Properties of the schema *)
(* ===================================================================== *)

Section SchemaFacts.

Import Sql.
Local Open Scope string_scope.
Local Open Scope list_scope.

(** ** Creating the tables twice *)

Lemma findTable_app n db t extra :
  findTable n db = Some t -> findTable n (db ++ extra) = Some t.
Proof.
  unfold findTable. induction db as [|x db IH]; cbn; [discriminate|].
  destruct (named n x); auto.
Qed.

Lemma findTable_last n db def :
  findTable n db = None -> tName def = n ->
  findTable n (db ++ [mkTable def []]) = Some (mkTable def []).
Proof.
  unfold findTable. intros Hn <-. induction db as [|x db IH]; cbn in *.
  - unfold named. cbn. now rewrite String.eqb_refl.
  - destruct (named (tName def) x); [discriminate | auto].
Qed.

(** a statement that succeeds keeps the tables that exist *)
Lemma execute_keeps st db db' n t :
  execute st db = Some db' -> findTable n db = Some t -> findTable n db' = Some t.
Proof.
  destruct st as [b def]. cbn.
  destruct (findTable (tName def) db) as [t0|].
  - destruct b; [|discriminate]. now intros [= <-].
  - destruct (forallb _ _); [|discriminate]. intros [= <-] H.
    now apply findTable_app.
Qed.

(** after a statement that succeeds, its table exists *)
Lemma execute_creates st db db' :
  execute st db = Some db' -> exists t, findTable (created st) db' = Some t.
Proof.
  destruct st as [b def]. cbn.
  destruct (findTable (tName def) db) as [t0|] eqn:E.
  - destruct b; [|discriminate]. intros [= <-]. eauto.
  - destruct (forallb _ _); [|discriminate]. intros [= <-].
    eexists. now apply findTable_last.
Qed.

Lemma executeAll_keeps sts : forall db db' n t,
  executeAll sts db = Some db' -> findTable n db = Some t -> findTable n db' = Some t.
Proof.
  induction sts as [|st sts IH]; cbn; intros db db' n t.
  - now intros [= <-].
  - destruct (execute st db) as [db1|] eqn:E; [|discriminate].
    intros H Hf. eapply IH; [eassumption|]. eapply execute_keeps; eassumption.
Qed.

Lemma executeAll_creates sts : forall db db',
  executeAll sts db = Some db' ->
  forall st, In st sts -> exists t, findTable (created st) db' = Some t.
Proof.
  induction sts as [|st0 sts IH]; cbn; intros db db' H st Hin; [contradiction|].
  destruct (execute st0 db) as [db1|] eqn:E; [|discriminate].
  destruct Hin as [<-|Hin].
  - destruct (execute_creates _ _ E) as (t & Ht).
    exists t. eapply executeAll_keeps; eassumption.
  - eapply IH; eassumption.
Qed.

(** a script of [IF NOT EXISTS] statements whose tables all exist does
    nothing *)
Lemma executeAll_existing sts db :
  (forall st, In st sts ->
     ifNotExists st = true /\ exists t, findTable (created st) db = Some t) ->
  executeAll sts db = Some db.
Proof.
  induction sts as [|st sts IH]; cbn; intros H; [reflexivity|].
  destruct (H st (or_introl eq_refl)) as (Hb & t & Ht).
  destruct st as [b def]. cbn in *. rewrite Ht, Hb. apply IH. auto.
Qed.

(** C5. Executing the three [CREATE TABLE IF NOT EXISTS] statements of the
    schema once more, on any state a first execution produced, succeeds and
    leaves that state unchanged. *)
Theorem C5_schema_idempotent (db db' : database) :
  executeAll schema db = Some db' ->
  executeAll schema db' = Some db'.
Proof.
  intros H. apply executeAll_existing. intros st Hin. split.
  - cbn in Hin. destruct Hin as [<-|[<-|[<-|[]]]]; reflexivity.
  - eapply executeAll_creates; eassumption.
Qed.

Lemma C5_schema_idempotent_witness :
  executeAll schema [] = Some (state [] [] []) /\
  executeAll schema (state [] [] []) = Some (state [] [] []).
Proof.
  split; [reflexivity|]. apply (@C5_schema_idempotent []). reflexivity.
Defined.

(** ** Cascading deletes *)

Lemma deleteFrom_users us qs ps doomed k :
  deleteFrom (3 + k) "users" doomed (state us qs ps) =
    Some (state (filter (fun r => negb (doomed r)) us)
                (surviving quizzes_user_fk (filter doomed us) qs)
                (surviving questions_quiz_fk
                   (cascaded quizzes_user_fk (filter doomed us) qs) ps)).
Proof. reflexivity. Qed.

Lemma deleteFrom_quizzes us qs ps doomed k :
  deleteFrom (2 + k) "quizzes" doomed (state us qs ps) =
    Some (state us
                (filter (fun r => negb (doomed r)) qs)
                (surviving questions_quiz_fk (filter doomed qs) ps)).
Proof. reflexivity. Qed.

(** a surviving child refers to none of the deleted parents *)
Lemma surviving_In fk gone rows r :
  In r (surviving fk gone rows) <->
  In r rows /\ forall p, In p gone -> refersTo fk r p = false.
Proof.
  unfold surviving, refersToAny. rewrite filter_In. split.
  - intros (Hin & Hn). split; [assumption|]. intros p Hp.
    destruct (refersTo fk r p) eqn:E; [|reflexivity].
    rewrite negb_true_iff in Hn.
    assert (existsb (refersTo fk r) gone = true)
      by (apply existsb_exists; eauto).
    congruence.
  - intros (Hin & Hn). split; [assumption|].
    rewrite negb_true_iff. destruct (existsb (refersTo fk r) gone) eqn:E;
      [|reflexivity].
    apply existsb_exists in E. destruct E as (p & Hp & Hr).
    rewrite (Hn p Hp) in Hr. discriminate.
Qed.

(** a parent that some surviving child refers to was not deleted *)
Lemma parent_survives fk (keep : row -> bool) parents rows r p :
  In r (surviving fk (filter (fun x => negb (keep x)) parents) rows) ->
  In p parents -> refersTo fk r p = true ->
  In p (filter keep parents).
Proof.
  intros Hr Hp Href. apply surviving_In in Hr. destruct Hr as (_ & Hn).
  apply filter_In. split; [assumption|].
  destruct (keep p) eqn:E; [reflexivity|].
  assert (In p (filter (fun x => negb (keep x)) parents))
    by (apply filter_In; rewrite E; auto).
  rewrite (Hn p) in Href by assumption. discriminate.
Qed.

Lemma filter_negb_negb A (f : A -> bool) l :
  filter (fun x => negb (negb (f x))) l = filter f l.
Proof. apply filter_ext. intros a. apply negb_involutive. Qed.

(** the two obligations of [noOrphans] for a state of the schema *)
Lemma noOrphans_state us qs ps :
  noOrphans (state us qs ps) <->
  (forall q, In q qs -> exists u, In u us /\ refersTo quizzes_user_fk q u = true) /\
  (forall x, In x ps -> exists q, In q qs /\ refersTo questions_quiz_fk x q = true).
Proof.
  unfold noOrphans. split.
  - intros H. split.
    + intros q Hq.
      apply (H (mkTable quizzes qs) quizzes_user_fk q); cbn; auto.
    + intros x Hx.
      apply (H (mkTable questions ps) questions_quiz_fk x); cbn; auto.
  - intros (Hq & Hx) t fk r Ht Hfk Hr.
    cbn in Ht. destruct Ht as [<-|[<-|[<-|[]]]]; cbn in Hfk, Hr.
    + contradiction.
    + destruct Hfk as [<-|[]]. apply (Hq r Hr).
    + destruct Hfk as [<-|[]]. apply (Hx r Hr).
Qed.

(** C4. In every state of the three tables in which every quiz has its
    user and every question its quiz, deleting rows of [users] succeeds and
    deletes every quiz that refers to a deleted user; deleting quizzes,
    directly or through that cascade, deletes every question that refers to
    a deleted quiz; in the state that results every quiz still has its user
    and every question its quiz. *)
Theorem C4_delete_cascades (us qs ps : list row) (doomed : row -> bool) (k : nat) :
  noOrphans (state us qs ps) ->
  (exists us' qs' ps',
     deleteFrom (3 + k) "users" doomed (state us qs ps) = Some (state us' qs' ps') /\
     (forall u, In u us' <-> In u us /\ doomed u = false) /\
     (forall q, In q qs' <->
        In q qs /\
        forall u, In u us -> doomed u = true -> refersTo quizzes_user_fk q u = false) /\
     (forall x, In x ps' <->
        In x ps /\
        forall q, In q qs -> ~ In q qs' -> refersTo questions_quiz_fk x q = false) /\
     noOrphans (state us' qs' ps')) /\
  (exists qs' ps',
     deleteFrom (2 + k) "quizzes" doomed (state us qs ps) = Some (state us qs' ps') /\
     (forall q, In q qs' <-> In q qs /\ doomed q = false) /\
     (forall x, In x ps' <->
        In x ps /\
        forall q, In q qs -> doomed q = true -> refersTo questions_quiz_fk x q = false) /\
     noOrphans (state us qs' ps')).
Proof.
  intros H. apply noOrphans_state in H. destruct H as (Hq & Hx). split.
  - eexists _, _, _. split; [apply deleteFrom_users|].
    assert (Hus : forall u, In u (filter (fun r => negb (doomed r)) us) <->
                            In u us /\ doomed u = false).
    { intros u. rewrite filter_In, negb_true_iff. reflexivity. }
    assert (Hqs : forall q,
      In q (surviving quizzes_user_fk (filter doomed us) qs) <->
      In q qs /\
      forall u, In u us -> doomed u = true -> refersTo quizzes_user_fk q u = false).
    { intros q. rewrite surviving_In. split; intros (Hin & Hn); (split; [assumption|]).
      - intros u Hu Hd. apply Hn, filter_In. auto.
      - intros u Hu. apply filter_In in Hu. destruct Hu. auto. }
    split; [exact Hus|]. split; [exact Hqs|]. split.
    + intros x. rewrite surviving_In. split; intros (Hin & Hn); (split; [assumption|]).
      * intros q Hqin Hgone. apply Hn. unfold cascaded. apply filter_In.
        split; [assumption|].
        destruct (refersToAny quizzes_user_fk (filter doomed us) q) eqn:E;
          [reflexivity|].
        exfalso. apply Hgone. unfold surviving. apply filter_In. rewrite E. auto.
      * intros q Hc. unfold cascaded in Hc. apply filter_In in Hc.
        destruct Hc as (Hqin & Href). apply Hn; [assumption|].
        unfold surviving. rewrite filter_In. rewrite Href. cbn. intros (_ & F).
        discriminate.
    + apply noOrphans_state. split.
      * intros q Hin. pose proof Hin as Hin'. apply surviving_In in Hin'.
        destruct Hin' as (Hqin & _). destruct (Hq q Hqin) as (u & Hu & Href).
        exists u. split; [|assumption].
        rewrite <- (filter_negb_negb doomed us) in Hin.
        exact (parent_survives _ _ _ _ _ _ Hin Hu Href).
      * intros x Hin. pose proof Hin as Hin'. apply surviving_In in Hin'.
        destruct Hin' as (Hxin & _). destruct (Hx x Hxin) as (q & Hqin & Href).
        exists q. split; [|assumption].
        unfold cascaded in Hin.
        rewrite <- (filter_negb_negb
                      (refersToAny quizzes_user_fk (filter doomed us)) qs) in Hin.
        exact (parent_survives _ _ _ _ _ _ Hin Hqin Href).
  - eexists _, _. split; [apply deleteFrom_quizzes|].
    split; [intros q; rewrite filter_In, negb_true_iff; reflexivity|]. split.
    + intros x. rewrite surviving_In. split; intros (Hin & Hn); (split; [assumption|]).
      * intros q Hqin Hd. apply Hn, filter_In. auto.
      * intros q Hc. apply filter_In in Hc. destruct Hc. auto.
    + apply noOrphans_state. split.
      * intros q Hin. apply filter_In in Hin. apply Hq, Hin.
      * intros x Hin. pose proof Hin as Hin'. apply surviving_In in Hin'.
        destruct Hin' as (Hxin & _). destruct (Hx x Hxin) as (q & Hqin & Href).
        exists q. split; [|assumption].
        rewrite <- (filter_negb_negb doomed qs) in Hin.
        exact (parent_survives _ _ _ _ _ _ Hin Hqin Href).
Qed.

Lemma noOrphans_sample : noOrphans sample.
Proof.
  apply noOrphans_state. split.
  - intros q [<-|[<-|[]]]; [exists alice | exists bob]; cbn; auto.
  - intros x [<-|[<-|[<-|[]]]]; [exists quizA | exists quizA | exists quizB];
      cbn; auto.
Defined.

Lemma C4_delete_cascades_witness :
  deleteFrom 3 "users" isAlice sample = Some (state [bob] [quizB] [questionB1]) /\
  noOrphans (state [bob] [quizB] [questionB1]).
Proof.
  destruct (proj1 (@C4_delete_cascades [alice; bob] [quizA; quizB]
                     [questionA1; questionA2; questionB1] isAlice 0
                     noOrphans_sample))
    as (us' & qs' & ps' & Hd & _ & _ & _ & Hn).
  vm_compute in Hd. injection Hd as <- <- <-. split; [reflexivity | exact Hn].
Defined.

End SchemaFacts.

(* ===================================================================== *)
(** * Properties of the error handler and of the middleware *)
(* ===================================================================== *)

Section WebFacts.

Import Js.
Local Open Scope string_scope.
Local Open Scope list_scope.



(** [preventDefault] does not keep every event from going further.  An
    error event that is not cancelable still has its default action after
    the handler has run; and [preventDefault] does not stop the dispatch:
    on a window where the handler was installed twice, the second listener
    receives the event that the first one has just prevented. *)
Lemma C8_event_goes_further :
  let boom := Browser.Thrown (newError "boom") in
  let w := Browser.setupGlobalErrorHandler Browser.newWindow in
  let fixed := Browser.mkEvent "error" boom Browser.Undefined false false in
  let ev := Browser.mkEvent "error" boom Browser.Undefined true false in
  Browser.defaultPrevented
    (Browser.event (snd (Browser.dispatchEvent w None fixed))) = false /\
  Browser.calls
    (snd (Browser.dispatchEvent (Browser.setupGlobalErrorHandler w) None ev)) =
    [Browser.console_error_call "Global error caught:" boom;
     Browser.preventDefault_call;
     Browser.console_error_call "Global error caught:" boom;
     Browser.preventDefault_call].
Proof.
  cbv zeta. split; reflexivity.
Qed.

(** C10. For every request [validate] does exactly one of two things.
    When [validationResult(req)] is not empty it sets the status to 400
    and sends one body [{success: false, errors}], each validation error
    mapped to [{field: error.param, message: error.msg}], and does not call
    [next].  When it is empty it calls [next] exactly once and sends
    nothing. *)
Theorem C10_validate_responds_or_continues
    (req : Middleware.Request) (x : Middleware.Exchange) :
  (Middleware.validationResult req <> [] ->
     Middleware.validate req x =
       (Normal tt,
        Middleware.mkExchange 400
          (Middleware.sent x ++
             [Middleware.mkBody false
                (map (fun e => Middleware.mkFieldError (Middleware.param e)
                                                       (Middleware.msg e))
                     (Middleware.validationResult req))])
          (Middleware.nextCalls x))) /\
  (Middleware.validationResult req = [] ->
     Middleware.validate req x =
       (Normal tt,
        Middleware.mkExchange (Middleware.statusCode x) (Middleware.sent x)
          (S (Middleware.nextCalls x)))).
Proof.
  unfold Middleware.validate. split; intros H.
  - destruct (Middleware.validationResult req) as [|e es]; [congruence|].
    reflexivity.
  - rewrite H. reflexivity.
Qed.

Lemma C10_validate_responds_or_continues_witness :
  let e := Middleware.mkValidationError "email" "Invalid email" "x" "body" in
  Middleware.validate (Middleware.mkRequest [e]) Middleware.newExchange =
    (Normal tt,
     Middleware.mkExchange 400
       [Middleware.mkBody false [Middleware.mkFieldError "email" "Invalid email"]]
       0) /\
  Middleware.validate (Middleware.mkRequest []) Middleware.newExchange =
    (Normal tt, Middleware.mkExchange 200 [] 1).
Proof.
  cbv zeta. split.
  - apply (proj1 (C10_validate_responds_or_continues
      (Middleware.mkRequest
         [Middleware.mkValidationError "email" "Invalid email" "x" "body"])
      Middleware.newExchange)).
    discriminate.
  - apply (proj2 (C10_validate_responds_or_continues
      (Middleware.mkRequest []) Middleware.newExchange)).
    reflexivity.
Defined.

End WebFacts.

(* ===================================================================== *)
(** * The error handler installed more than once *)
(* ===================================================================== *)

Section WebMoreFacts.

Import Js Browser WebMore.
Local Open Scope string_scope.
Local Open Scope list_scope.

Lemma setups_listeners k w :
  listeners (setups k w) =
    listeners w ++
    List.concat (repeat [("error", onError);
                         ("unhandledrejection", onUnhandledRejection)] k).
Proof.
  induction k as [|k IH]; [cbn; now rewrite app_nil_r|].
  change (setups (S k) w) with (setupGlobalErrorHandler (setups k w)).
  unfold setupGlobalErrorHandler, addEventListener. cbn [listeners].
  rewrite IH, <- !app_assoc. f_equal.
  change (List.concat (repeat ?x (S k))) with (x ++ List.concat (repeat x k)).
  clear IH. induction k as [|k IH]; [reflexivity|].
  cbn [repeat List.concat]. cbn [app] in *. now rewrite IH.
Qed.

Lemma filter_setups ty k :
  filter (fun tl : string * Listener => String.eqb (fst tl) ty)
    (List.concat (repeat [("error", onError);
                          ("unhandledrejection", onUnhandledRejection)] k)) =
    (if String.eqb "error" ty then repeat ("error", onError) k else []) ++
    (if String.eqb "unhandledrejection" ty
     then repeat ("unhandledrejection", onUnhandledRejection) k else []).
Proof.
  induction k as [|k IH].
  - cbn [repeat List.concat filter].
    now destruct (String.eqb "error" ty), (String.eqb "unhandledrejection" ty).
  - cbn [repeat List.concat]. rewrite filter_app, IH. cbn [filter fst app].
    destruct (String.eqb_spec "error" ty) as [<-|He].
    + reflexivity.
    + destruct (String.eqb "unhandledrejection" ty); reflexivity.
Qed.

Lemma prevented_idem ev : prevented (prevented ev) = prevented ev.
Proof.
  destruct ev as [ty er re c dp]. unfold prevented. cbn.
  now destruct c, dp.
Qed.

Lemma listeners_run NODE_ENV l ty k d :
  forOf (repeat (ty, l) k)
        (fun tl : string * Listener => listener (snd tl) NODE_ENV) d =
    (Normal tt,
     mkDispatch (afterListeners k (event d))
       (calls d ++
        List.concat
          (repeat (oneHandling
                     (match l with
                      | onError => "Global error caught:"
                      | onUnhandledRejection => "Unhandled promise rejection:"
                      end)
                     (match l with
                      | onError => error (event d)
                      | onUnhandledRejection => reason (event d)
                      end)) k))).
Proof.
  revert d. induction k as [|k IH]; intros [ev cs].
  - cbn. now rewrite app_nil_r.
  - cbn [repeat forOf snd].
    assert (E : listener l NODE_ENV (mkDispatch ev cs) =
                (Normal tt,
                 mkDispatch (prevented ev)
                   (cs ++ oneHandling
                      (match l with
                       | onError => "Global error caught:"
                       | onUnhandledRejection => "Unhandled promise rejection:"
                       end)
                      (match l with
                       | onError => error ev
                       | onUnhandledRejection => reason ev
                       end)))).
    { destruct l; cbn -[isProduction]; destruct (isProduction NODE_ENV);
        unfold preventDefault, modify, prevented, oneHandling; cbn;
        now rewrite <- app_assoc. }
    unfold bind at 1. rewrite E, IH. cbn [event calls].
    rewrite <- app_assoc.
    replace (afterListeners k (prevented ev)) with (afterListeners (S k) ev)
      by (destruct k; [reflexivity|];
          cbn [afterListeners]; now rewrite prevented_idem).
    cbn [repeat List.concat]. now destruct l, ev.
Qed.

(** X19. [setupGlobalErrorHandler] does not check whether it has run
    before: after [k] calls on a new window an error event is logged and
    prevented [k] times over, in registration order, an unhandled rejection
    likewise, and an event of any other type reaches no listener and is
    left as it was. *)
Theorem X19_repeated_setup (k : nat) (NODE_ENV : option string) (ev : Event) :
  let w := setups k newWindow in
  (type ev = "error" ->
     dispatchEvent w NODE_ENV ev =
       (Normal tt,
        mkDispatch (afterListeners k ev)
          (List.concat
             (repeat (oneHandling "Global error caught:" (error ev)) k)))) /\
  (type ev = "unhandledrejection" ->
     dispatchEvent w NODE_ENV ev =
       (Normal tt,
        mkDispatch (afterListeners k ev)
          (List.concat
             (repeat (oneHandling "Unhandled promise rejection:" (reason ev))
                     k)))) /\
  (handled (type ev) = false ->
     dispatchEvent w NODE_ENV ev = (Normal tt, mkDispatch ev [])).
Proof.
  cbv zeta. unfold dispatchEvent.
  rewrite setups_listeners. cbn [newWindow listeners app].
  rewrite filter_setups. repeat split; intros H.
  - rewrite H. cbn [String.eqb Ascii.eqb Bool.eqb]. rewrite app_nil_r.
    now rewrite listeners_run.
  - rewrite H. cbn [String.eqb Ascii.eqb Bool.eqb app].
    now rewrite listeners_run.
  - unfold handled in H. apply Bool.orb_false_iff in H. destruct H as (H1 & H2).
    rewrite String.eqb_sym in H1. rewrite String.eqb_sym in H2.
    now rewrite H1, H2.
Qed.

Lemma X19_repeated_setup_witness :
  let ev := mkEvent "error" (Thrown (newError "boom")) Undefined true false in
  dispatchEvent (setups 2 newWindow) None ev =
    (Normal tt,
     mkDispatch (prevented ev)
       [console_error_call "Global error caught:" (Thrown (newError "boom"));
        preventDefault_call;
        console_error_call "Global error caught:" (Thrown (newError "boom"));
        preventDefault_call]).
Proof.
  cbv zeta.
  apply (proj1 (X19_repeated_setup 2 None
    (mkEvent "error" (Thrown (newError "boom")) Undefined true false))).
  reflexivity.
Defined.

End WebMoreFacts.
